(** * ScrapCo backend: the HTTP boundary around the dispatch engine

    A shallow embedding of the route handlers of the ScrapCo backend
    (routes/vendor.js, routes/pickups.js and the admin router) together with the
    part of the JavaScript value semantics they rely on, and a model of the
    acceptance arbiter of services/dispatcher.js taken from the design
    document.  Handlers are functions from a request, an environment of
    external outcomes and a world (the persisted tables, the in-memory
    dispatch state and a trace of outward calls) to a response and a new
    world. *)

From Stdlib Require Import ZArith QArith String Ascii List Bool Lia.
From stdpp Require Import base option list gmap strings.

Import ListNotations.
Set Warnings "-register-all".
Local Open Scope string_scope.
Local Open Scope Z_scope.

(** ** JavaScript values *)

Module JS.

(** A JavaScript number: the three non-finite values, or a finite value.
    Every finite double is a rational, so finite values are kept in [Q];
    both zeros are [Fin 0]. *)
Inductive num : Type :=
| NaN
| PosInf
| NegInf
| Fin (q : Q).

(** The values a parsed JSON body or a handler local can hold. Object
    fields are kept in source order; a lookup returns the first binding. *)
Inductive value : Type :=
| Undefined
| Null
| Bool (b : bool)
| Num (n : num)
| Str (s : string)
| Arr (xs : list value)
| Obj (fields : list (string * value)).

Definition is_zero (q : Q) : bool := (Qnum q =? 0)%Z.
Definition is_pos (q : Q) : bool := (0 <? Qnum q)%Z.

(** ToBoolean *)
Definition truthy (v : value) : bool :=
  match v with
  | Undefined | Null => false
  | Bool b => b
  | Num NaN => false
  | Num (Fin q) => negb (is_zero q)
  | Num _ => true
  | Str s => negb (String.eqb s "")
  | Arr _ | Obj _ => true
  end.

(** [a || b] *)
Definition or (a b : value) : value := if truthy a then a else b.

(** [x == null]: true of [null] and [undefined] only. *)
Definition nullish (v : value) : bool :=
  match v with
  | Undefined | Null => true
  | _ => false
  end.

(** [a ?? b] *)
Definition coalesce (a b : value) : value := if nullish a then b else a.

(** [typeof v === 'number'] *)
Definition is_number (v : value) : bool :=
  match v with
  | Num _ => true
  | _ => false
  end.

(** [Array.isArray(v)] *)
Definition isArray (v : value) : bool :=
  match v with
  | Arr _ => true
  | _ => false
  end.

Fixpoint assoc (k : string) (fields : list (string * value)) : value :=
  match fields with
  | [] => Undefined
  | (k', v) :: rest => if String.eqb k k' then v else assoc k rest
  end.

(** [v.k] for a [v] that is not [null] or [undefined] (the handlers guard
    those with [|| {}], [?.] or an explicit test). Only the [length] of an
    array is modelled among the built-in properties. *)
Definition get (k : string) (v : value) : value :=
  match v with
  | Obj fields => assoc k fields
  | Arr xs =>
      if String.eqb k "length" then Num (Fin (inject_Z (Z.of_nat (length xs))))
      else Undefined
  | _ => Undefined
  end.

(** [v.length === 0] *)
Definition is_zero_length (v : value) : bool :=
  match get "length" v with
  | Num (Fin q) => is_zero q
  | _ => false
  end.

(** [v?.k] *)
Definition get_opt (k : string) (v : value) : value :=
  if nullish v then Undefined else get k v.

(** *** Strings *)

(** Strings are sequences of 8-bit code units. The white space recognised
    by [trim] is the ASCII part of the ECMAScript set: TAB, LF, VT, FF, CR
    and SPACE. *)
Definition is_space (c : ascii) : bool :=
  let n := nat_of_ascii c in
  ((9 <=? n)%nat && (n <=? 13)%nat) || (n =? 32)%nat.

Fixpoint trim_start (s : string) : string :=
  match s with
  | EmptyString => EmptyString
  | String c rest => if is_space c then trim_start rest else s
  end.

Fixpoint rev_onto (s acc : string) : string :=
  match s with
  | EmptyString => acc
  | String c rest => rev_onto rest (String c acc)
  end.

Definition rev (s : string) : string := rev_onto s EmptyString.

Definition trim (s : string) : string :=
  rev (trim_start (rev (trim_start s))).

Definition map_chars (f : ascii -> ascii) : string -> string :=
  fix go (s : string) : string :=
    match s with
    | EmptyString => EmptyString
    | String c rest => String (f c) (go rest)
    end.

Definition upper_char (c : ascii) : ascii :=
  let n := nat_of_ascii c in
  if ((97 <=? n)%nat && (n <=? 122)%nat) then ascii_of_nat (n - 32) else c.

Definition lower_char (c : ascii) : ascii :=
  let n := nat_of_ascii c in
  if ((65 <=? n)%nat && (n <=? 90)%nat) then ascii_of_nat (n + 32) else c.

(** [toUpperCase] and [toLowerCase] on the ASCII letters; the handlers
    apply them to status labels and to environment flags. *)
Definition toUpperCase : string -> string := map_chars upper_char.
Definition toLowerCase : string -> string := map_chars lower_char.

(** *** Conversions

    Rendering a number as text and reading a number from text are the
    floating-point parts of the language; they are taken from the host. *)
Record host : Type := {
  NumberToString : num -> string;
  StringToNumber : string -> num;
}.

Section Conversions.
Variable h : host.

(** [String(v)] *)
Fixpoint String_ (v : value) : string :=
  match v with
  | Undefined => "undefined"
  | Null => "null"
  | Bool true => "true"
  | Bool false => "false"
  | Num n => NumberToString h n
  | Str s => s
  | Arr xs =>
      (fix join (ys : list value) : string :=
         match ys with
         | [] => ""
         | y :: rest =>
             let here := if nullish y then "" else String_ y in
             match rest with
             | [] => here
             | _ :: _ => here ++ "," ++ join rest
             end
         end) xs
  | Obj _ => "[object Object]"
  end.

(** [Number(v)] *)
Definition Number (v : value) : num :=
  match v with
  | Undefined => NaN
  | Null => Fin 0
  | Bool true => Fin 1
  | Bool false => Fin 0
  | Num n => n
  | Str s => StringToNumber h s
  | Arr _ | Obj _ => StringToNumber h (String_ v)
  end.
End Conversions.

(** [Number.isFinite] *)
Definition isFinite (n : num) : bool :=
  match n with
  | Fin _ => true
  | _ => false
  end.

(** [n <= 0]; false when [n] is [NaN]. *)
Definition le_zero (n : num) : bool :=
  match n with
  | NaN | PosInf => false
  | NegInf => true
  | Fin q => negb (is_pos q)
  end.

(** *** The regular expressions of the handlers

    All of them are case-insensitive searches for literal pieces, possibly
    separated by [.*], which does not cross a line terminator. *)
Fixpoint prefix_ci (p s : string) : bool :=
  match p, s with
  | EmptyString, _ => true
  | String a p', String b s' =>
      Ascii.eqb (lower_char a) (lower_char b) && prefix_ci p' s'
  | String _ _, EmptyString => false
  end.

Fixpoint drop (n : nat) (s : string) : string :=
  match n, s with
  | O, _ => s
  | S n', String _ rest => drop n' rest
  | S _, EmptyString => EmptyString
  end.

(** The line terminators among the 8-bit code units, LF and CR; the
    other two of the language, U+2028 and U+2029, lie outside them. *)
Definition is_newline (c : ascii) : bool :=
  let n := nat_of_ascii c in (n =? 10)%nat || (n =? 13)%nat.

(** The text after the leftmost occurrence of [p] in [s]; with
    [same_line] the search stops at the first line terminator. *)
Fixpoint after_ci (same_line : bool) (p s : string) : option string :=
  if prefix_ci p s then Some (drop (String.length p) s)
  else match s with
       | EmptyString => None
       | String c rest =>
           if same_line && is_newline c then None
           else after_ci same_line p rest
       end.

(** [/p/i.test(s)] for a literal [p]. *)
Definition test_ci (p s : string) : bool :=
  match after_ci false p s with
  | Some _ => true
  | None => false
  end.

(** The pieces [ps] in this order on one line, starting at the head of
    [s] or later on the same line. *)
Fixpoint pieces_ci (ps : list string) (s : string) : bool :=
  match ps with
  | [] => true
  | p :: ps' =>
      match after_ci true p s with
      | Some rest => pieces_ci ps' rest
      | None => false
      end
  end.

(** [/p1.*p2.*p3/i.test(s)]: some occurrence of [p1], followed on its
    line by the remaining pieces. *)
Fixpoint seq_ci (p1 : string) (ps : list string) (s : string) : bool :=
  (prefix_ci p1 s && pieces_ci ps (drop (String.length p1) s))
  || match s with
     | EmptyString => false
     | String _ rest => seq_ci p1 ps rest
     end.

End JS.

(** ** Data model *)

(** The [pickup_status] enumeration of the schema, with the [ON_THE_WAY]
    stage of the status-advance callbacks. *)
Inductive pickup_status : Type :=
| REQUESTED
| FINDING_VENDOR
| ASSIGNED
| ON_THE_WAY
| COMPLETED
| NO_VENDOR_AVAILABLE
| CANCELLED.

#[global] Instance pickup_status_eq_dec : EqDecision pickup_status.
Proof. solve_decision. Defined.

Definition status_label (s : pickup_status) : string :=
  match s with
  | REQUESTED => "REQUESTED"
  | FINDING_VENDOR => "FINDING_VENDOR"
  | ASSIGNED => "ASSIGNED"
  | ON_THE_WAY => "ON_THE_WAY"
  | COMPLETED => "COMPLETED"
  | NO_VENDOR_AVAILABLE => "NO_VENDOR_AVAILABLE"
  | CANCELLED => "CANCELLED"
  end.

(** A row of [pickups]. Timestamps are milliseconds since the epoch. *)
Record pickup : Type := mkPickup {
  customer_id : string;
  status : pickup_status;
  address : string;
  time_slot : string;
  assigned_vendor_ref : option string;
  assignment_expires_at : option Z;
  cancelled_at : option Z;
  completed_at : option Z;
}.

(** The process-local entry of the dispatcher's [dispatchState] map. *)
Record dispatch_entry : Type := mkEntry {
  candidate : option string;
  timer : option nat;
  generation : nat;
}.

(** A row of [pickup_vendor_rejections]. *)
Inductive rejection_reason : Type :=
| ExplicitReject
| TimedOut
| SendFailure.

Record rejection : Type := mkRejection {
  rej_pickup : string;
  rej_vendor : string;
  rej_reason : rejection_reason;
  rej_at : Z;
}.

(** A row of [scrap_rates]. *)
Record rate_row : Type := mkRate {
  scrap_type_id : string;
  rate_per_kg : JS.num;
  is_active : bool;
  effective_from : Z;
}.

(** A row of [vendor_backends], in the preferred column naming
    (vendor_id, latitude, longitude, offer_url, is_available, updated_at)
    or the legacy one (vendor_ref, last_latitude, last_longitude,
    offer_url, active, updated_at). The table is keyed by the conflict
    column of the upsert. *)
Inductive vendor_row : Type :=
| PreferredRow (latitude longitude offer_url : JS.value)
    (is_available : bool) (updated_at : Z)
| LegacyRow (last_latitude last_longitude offer_url : JS.value)
    (active : bool) (updated_at : Z).

(** Arguments of the [create_pickup] remote procedure. *)
Record rpc_args : Type := mkRpcArgs {
  p_address : string;
  p_latitude : JS.value;
  p_longitude : JS.value;
  p_time_slot : string;
  p_items : JS.value;
}.

(** Calls that leave the handler: dispatcher entry points, the background
    dispatch task and the remote procedure. *)
Inductive event : Type :=
| CallConfirm (pickupId vendorRef : JS.value)
| CallReject (pickupId vendorRef : JS.value)
| SpawnDispatch (pickupId : JS.value)
| CallCreatePickup (args : rpc_args).

Record world : Type := mkWorld {
  pickups : gmap string pickup;
  rejections : list rejection;
  dispatchState : gmap string dispatch_entry;
  armed : gset nat;
  scrap_rates : list rate_row;
  vendor_backends : gmap string vendor_row;
  trace : list event;
}.

Definition with_pickups (f : gmap string pickup -> gmap string pickup)
    (w : world) : world :=
  mkWorld (f (pickups w)) (rejections w) (dispatchState w) (armed w)
    (scrap_rates w) (vendor_backends w) (trace w).

Definition with_rejections (f : list rejection -> list rejection)
    (w : world) : world :=
  mkWorld (pickups w) (f (rejections w)) (dispatchState w) (armed w)
    (scrap_rates w) (vendor_backends w) (trace w).

Definition with_dispatchState
    (f : gmap string dispatch_entry -> gmap string dispatch_entry)
    (w : world) : world :=
  mkWorld (pickups w) (rejections w) (f (dispatchState w)) (armed w)
    (scrap_rates w) (vendor_backends w) (trace w).

Definition with_armed (f : gset nat -> gset nat) (w : world) : world :=
  mkWorld (pickups w) (rejections w) (dispatchState w) (f (armed w))
    (scrap_rates w) (vendor_backends w) (trace w).

Definition with_scrap_rates (f : list rate_row -> list rate_row)
    (w : world) : world :=
  mkWorld (pickups w) (rejections w) (dispatchState w) (armed w)
    (f (scrap_rates w)) (vendor_backends w) (trace w).

Definition with_vendor_backends
    (f : gmap string vendor_row -> gmap string vendor_row)
    (w : world) : world :=
  mkWorld (pickups w) (rejections w) (dispatchState w) (armed w)
    (scrap_rates w) (f (vendor_backends w)) (trace w).

(** Appends a call to the trace. *)
Definition emit (ev : event) (w : world) : world :=
  mkWorld (pickups w) (rejections w) (dispatchState w) (armed w)
    (scrap_rates w) (vendor_backends w) (trace w ++ [ev]).

(** [clearTimeout(h)] *)
Definition clearTimeout (h : nat) (w : world) : world :=
  with_armed (fun a => a ∖ {[h]}) w.

(** ** Requests, responses and the environment of a handler *)

Record request : Type := mkRequest {
  body : JS.value;
  params_id : JS.value;
}.

Record response : Type := mkResponse {
  code : nat;
  json : JS.value;
}.

(** [res.status(c).json({ success: false, error })] *)
Definition failure (c : nat) (error : JS.value) : response :=
  mkResponse c (JS.Obj [("success", JS.Bool false); ("error", error)]).

(** [res.status(c).json({ success: true, ...fields })] *)
Definition success (c : nat) (fields : list (string * JS.value)) : response :=
  mkResponse c (JS.Obj (("success", JS.Bool true) :: fields)).

(** What a call into the dispatcher does: it returns a value or throws. *)
Inductive completion : Type :=
| Returned (v : JS.value)
| Threw.

(** What the [create_pickup] procedure answers: [{ data, error }]. *)
Inductive rpc_result : Type :=
| RpcData (data : JS.value)
| RpcError (message : string).

(** Everything a handler obtains from outside its own code while serving
    one request:
    - [host]: the number conversions of the language;
    - [now], [toISOString]: the clock read by [new Date()] and its rendering;
    - [ALLOW_ADMIN_PORTAL], [ALLOW_DEV_BYPASS]: the process environment;
    - [signature]: the object [verifyVendorSignature(req)] returns;
    - [bearer]: what [getBearerToken(req)] returns;
    - [anon_client_error], [service_client_error]: the message of the error
      the client factories throw when they are not configured;
    - [rls_visible]: the rows of [pickups] the bearer may read;
    - [fault k]: the error message of the [k]-th table operation of the
      handler, if that operation fails; a failed operation leaves the table
      as it was;
    - [exposes_internal]: whether the dispatcher hands out
      [_internal.dispatchState];
    - [create_pickup]: the remote procedure of the same name. *)
Record env : Type := mkEnv {
  host : JS.host;
  now : Z;
  toISOString : Z -> string;
  ALLOW_ADMIN_PORTAL : JS.value;
  ALLOW_DEV_BYPASS : JS.value;
  signature : JS.value;
  bearer : JS.value;
  anon_client_error : option string;
  service_client_error : option string;
  rls_visible : string -> pickup -> bool;
  fault : nat -> option string;
  exposes_internal : bool;
  create_pickup : rpc_args -> world -> rpc_result * world;
}.

(** The two entry points of services/dispatcher.js the vendor callbacks
    await. *)
Record dispatcher : Type := mkDispatcher {
  confirmVendorAcceptance :
    env -> JS.value -> JS.value -> world -> completion * world;
  handleVendorRejection :
    env -> JS.value -> JS.value -> world -> completion * world;
}.

(** ** routes/vendor.js *)

Module Vendor.

(** [body.pickupId || body.pickup_id || body.request_id || body.requestId] *)
Definition pickupId_of (b : JS.value) : JS.value :=
  JS.or (JS.or (JS.or (JS.get "pickupId" b) (JS.get "pickup_id" b))
           (JS.get "request_id" b))
    (JS.get "requestId" b).

(** [assignedVendorRef || vendor_id || vendorId] *)
Definition vendorRef_of (b : JS.value) : JS.value :=
  JS.or (JS.or (JS.get "assignedVendorRef" b) (JS.get "vendor_id" b))
    (JS.get "vendorId" b).

Definition pickupId_required : JS.value :=
  JS.Str "pickupId is required (accepted keys: pickupId, pickup_id, request_id, requestId)".

Definition vendor_required : JS.value :=
  JS.Str "vendor_id (or assignedVendorRef) is required".

Section Callbacks.
Variable d : dispatcher.

(** POST /api/vendor/accept *)
Definition accept (e : env) (req : request) (w : world) : response * world :=
  let sig := signature e in
  if negb (JS.truthy (JS.get "ok" sig)) then
    (failure 401 (JS.get "error" sig), w)
  else
    let b := JS.or (body req) (JS.Obj []) in
    let pickupId := pickupId_of b in
    if negb (JS.truthy pickupId) then (failure 400 pickupId_required, w)
    else
      let vendorRef := vendorRef_of b in
      if negb (JS.truthy vendorRef) then (failure 400 vendor_required, w)
      else
        match confirmVendorAcceptance d e pickupId vendorRef
                (emit (CallConfirm pickupId vendorRef) w) with
        | (Returned result, w') =>
            if negb (JS.truthy result) then
              (failure 409
                 (JS.Str "Pickup not found, not assigned to this vendor, or already assigned"),
               w')
            else (success 200 [("pickup", result)], w')
        | (Threw, w') => (failure 500 (JS.Str "Vendor accept failed"), w')
        end.

(** POST /api/vendor/reject *)
Definition reject (e : env) (req : request) (w : world) : response * world :=
  let sig := signature e in
  if negb (JS.truthy (JS.get "ok" sig)) then
    (failure 401 (JS.get "error" sig), w)
  else
    let b := JS.or (body req) (JS.Obj []) in
    let pickupId := pickupId_of b in
    if negb (JS.truthy pickupId) then (failure 400 pickupId_required, w)
    else
      let vendorRef := vendorRef_of b in
      if negb (JS.truthy vendorRef) then (failure 400 vendor_required, w)
      else
        match handleVendorRejection d e pickupId vendorRef
                (emit (CallReject pickupId vendorRef) w) with
        | (Returned result, w') =>
            (success 200
               [("result", JS.or result (JS.Obj [("ignored", JS.Bool true)]))],
             w')
        | (Threw, w') => (failure 500 (JS.Str "Vendor reject failed"), w')
        end.

End Callbacks.

(** [/column .*vendor_id.*does not exist|on conflict.*vendor_id|there is no unique or exclusion constraint/i] *)
Definition schema_mismatch (message : string) : bool :=
  JS.seq_ci "column " ["vendor_id"; "does not exist"] message
  || JS.seq_ci "on conflict" ["vendor_id"] message
  || JS.test_ci "there is no unique or exclusion constraint" message.

(** POST /api/vendor/location. The [updated_at] of the answer is rendered
    from the clock, which is also what the row is written with; the handler
    prefers the rendering the store returns for that row. *)
Definition location (e : env) (req : request) (w : world) : response * world :=
  let b := JS.or (body req) (JS.Obj []) in
  let latitude := JS.get "latitude" b in
  let longitude := JS.get "longitude" b in
  let incomingVendorId :=
    JS.or (JS.or (JS.get "vendor_id" b) (JS.get "vendorId" b))
      (JS.get "vendorRef" b) in
  if negb (JS.truthy incomingVendorId) then
    (failure 400 (JS.Str "vendor_id is required"), w)
  else if negb (JS.is_number latitude) || negb (JS.is_number longitude) then
    (failure 400 (JS.Str "latitude and longitude must be numbers"), w)
  else
    match service_client_error e with
    | Some _ => (failure 500 (JS.Str "Vendor location failed"), w)
    | None =>
        let offerUrlFinal :=
          JS.or (JS.or (JS.get "offer_url" b) (JS.get "offerUrl" b)) JS.Null in
        let key := JS.String_ (host e) incomingVendorId in
        let preferredRow :=
          PreferredRow (JS.coalesce latitude JS.Null)
            (JS.coalesce longitude JS.Null) offerUrlFinal true (now e) in
        let legacyRow :=
          LegacyRow (JS.coalesce latitude JS.Null)
            (JS.coalesce longitude JS.Null) offerUrlFinal true (now e) in
        let written (w' : world) :=
          (success 200
             [("vendor_id", JS.Str key);
              ("updated_at", JS.Str (toISOString e (now e)))],
           w') in
        let refused (message : string) :=
          (failure 400
             (JS.or (JS.Str message)
                (JS.Str "Could not upsert vendor location")),
           w) in
        match fault e 0 with
        | None => written (with_vendor_backends (insert key preferredRow) w)
        | Some message =>
            if schema_mismatch message then
              match fault e 1 with
              | None => written (with_vendor_backends (insert key legacyRow) w)
              | Some message' => refused message'
              end
            else refused message
        end
    end.

(** The vendor identifier and the callback address of a location
    update, as the handler reads them. *)
Definition incoming_vendor_id (req : request) : JS.value :=
  let b := JS.or (body req) (JS.Obj []) in
  JS.or (JS.or (JS.get "vendor_id" b) (JS.get "vendorId" b))
    (JS.get "vendorRef" b).

Definition offer_url_of (req : request) : JS.value :=
  let b := JS.or (body req) (JS.Obj []) in
  JS.or (JS.or (JS.get "offer_url" b) (JS.get "offerUrl" b)) JS.Null.

Definition coordinate (k : string) (req : request) : JS.value :=
  JS.get k (JS.or (body req) (JS.Obj [])).

End Vendor.

(** ** routes/pickups.js *)

Module Pickups.

(** The error text for an invalid body, or [None] for a valid one. *)
Definition validatePickupBody (h : JS.host) (b : JS.value) : option string :=
  if negb (JS.truthy b) then Some "Request body is missing."
  else if negb (JS.isArray (JS.get "items" b))
          || JS.is_zero_length (JS.get "items" b) then
    Some "items is required (array of { scrapTypeId, estimatedQuantity })."
  else if negb (JS.truthy (JS.get "address" b))
          || String.eqb (JS.trim (JS.String_ h (JS.get "address" b))) "" then
    Some "address is required."
  else if negb (JS.truthy (JS.get "timeSlot" b))
          || String.eqb (JS.trim (JS.String_ h (JS.get "timeSlot" b))) "" then
    Some "timeSlot is required."
  else if negb (JS.nullish (JS.get "latitude" b))
          && negb (JS.is_number (JS.get "latitude" b)) then
    Some "latitude must be a number."
  else if negb (JS.nullish (JS.get "longitude" b))
          && negb (JS.is_number (JS.get "longitude" b)) then
    Some "longitude must be a number."
  else None.

(** POST /api/pickups *)
Definition create (e : env) (req : request) (w : world) : response * world :=
  match validatePickupBody (host e) (body req) with
  | Some errorMessage => (failure 400 (JS.Str errorMessage), w)
  | None =>
      if negb (JS.truthy (bearer e)) then
        (failure 401 (JS.Str "Missing Authorization Bearer token"), w)
      else
        match anon_client_error e with
        | Some message =>
            (failure 500
               (JS.or (JS.Str message)
                  (JS.Str "Supabase is not configured on server")),
             w)
        | None =>
            let args :=
              mkRpcArgs
                (JS.trim (JS.String_ (host e) (JS.get "address" (body req))))
                (JS.coalesce (JS.get "latitude" (body req)) JS.Null)
                (JS.coalesce (JS.get "longitude" (body req)) JS.Null)
                (JS.trim (JS.String_ (host e) (JS.get "timeSlot" (body req))))
                (JS.get "items" (body req)) in
            match create_pickup e args (emit (CallCreatePickup args) w) with
            | (RpcError message, w') =>
                let msg :=
                  if String.eqb message "" then "Could not create pickup"
                  else message in
                if JS.test_ci "function create_pickup" msg
                   || JS.test_ci "schema cache" msg then
                  (failure 501
                     (JS.Str "Missing RPC create_pickup. Apply the Supabase SQL migration for RLS + RPC, then retry."),
                   w')
                else (failure 400 (JS.Str msg), w')
            | (RpcData pickupId, w') =>
                let w'' :=
                  if JS.truthy pickupId then emit (SpawnDispatch pickupId) w'
                  else w' in
                (success 201 [("pickupId", pickupId)], w'')
            end
        end
  end.

(** The row the anon client sees for [id] under row-level security. *)
Definition select_owned (e : env) (id : string) (w : world) : option pickup :=
  match pickups w !! id with
  | Some p => if rls_visible e id p then Some p else None
  | None => None
  end.

(** [String(req.params.id || '').trim()] *)
Definition route_id (e : env) (req : request) : string :=
  JS.trim (JS.String_ (host e) (JS.or (params_id req) (JS.Str ""))).

(** [String(owned.status || '').toUpperCase()] *)
Definition upper_status (p : pickup) : string :=
  JS.toUpperCase (status_label (status p)).

(** The [try] block that stops the in-memory timer and state of a pickup:
    it does nothing when the dispatcher does not hand out its internals. *)
Definition stop_dispatch (e : env) (id : string) (w : world) : world :=
  if exposes_internal e then
    let w' :=
      match dispatchState w !! id with
      | Some {| timer := Some h |} => clearTimeout h w
      | _ => w
      end in
    with_dispatchState (delete id) w'
  else w.

(** The update of POST /:id/find-vendor. *)
Definition reset_offer (p : pickup) : pickup :=
  mkPickup (customer_id p) FINDING_VENDOR (address p) (time_slot p)
    None None None (completed_at p).

(** The update of POST /:id/cancel. *)
Definition mark_cancelled (t : Z) (p : pickup) : pickup :=
  mkPickup (customer_id p) CANCELLED (address p) (time_slot p)
    None None (Some t) (completed_at p).

(** [service.from('pickups').update(...).eq('id', id)]: the [k]-th table
    operation; the handlers do not look at its result. *)
Definition update_pickup (e : env) (k : nat) (id : string)
    (f : pickup -> pickup) (w : world) : world :=
  match fault e k with
  | Some _ => w
  | None => with_pickups (alter f id) w
  end.

(** POST /api/pickups/:id/find-vendor *)
Definition find_vendor (e : env) (req : request) (w : world)
    : response * world :=
  if negb (JS.truthy (bearer e)) then
    (failure 401 (JS.Str "Missing Authorization Bearer token"), w)
  else
    let id := route_id e req in
    if String.eqb id "" then (failure 400 (JS.Str "id is required"), w)
    else
      let crashed :=
        failure 500 (JS.Str "Could not restart vendor dispatch") in
      match anon_client_error e with
      | Some _ => (crashed, w)
      | None =>
          match fault e 0 with
          | Some message =>
              (failure 400
                 (JS.or (JS.Str message) (JS.Str "Could not verify pickup")),
               w)
          | None =>
              match select_owned e id w with
              | None => (failure 404 (JS.Str "pickup not found"), w)
              | Some owned =>
                  let st := upper_status owned in
                  if String.eqb st "ASSIGNED" || String.eqb st "CANCELLED"
                     || String.eqb st "COMPLETED" then
                    (failure 409
                       (JS.Str ("Cannot retry vendor assignment for status "
                                ++ status_label (status owned))),
                     w)
                  else
                    match service_client_error e with
                    | Some _ => (crashed, w)
                    | None =>
                        let w1 := update_pickup e 1 id reset_offer w in
                        let w2 := stop_dispatch e id w1 in
                        let w3 := emit (SpawnDispatch (JS.Str id)) w2 in
                        (success 200
                           [("pickupId", JS.Str id);
                            ("status", JS.Str "FINDING_VENDOR")],
                         w3)
                    end
              end
          end
      end.

(** POST /api/pickups/:id/cancel *)
Definition cancel (e : env) (req : request) (w : world) : response * world :=
  if negb (JS.truthy (bearer e)) then
    (failure 401 (JS.Str "Missing Authorization Bearer token"), w)
  else
    let id := route_id e req in
    if String.eqb id "" then (failure 400 (JS.Str "id is required"), w)
    else
      let crashed := failure 500 (JS.Str "Could not cancel pickup") in
      match anon_client_error e with
      | Some _ => (crashed, w)
      | None =>
          match fault e 0 with
          | Some message =>
              (failure 400
                 (JS.or (JS.Str message) (JS.Str "Could not verify pickup")),
               w)
          | None =>
              match select_owned e id w with
              | None => (failure 404 (JS.Str "pickup not found"), w)
              | Some owned =>
                  if String.eqb (upper_status owned) "COMPLETED" then
                    (failure 409
                       (JS.Str "Completed pickups cannot be cancelled"), w)
                  else
                    match service_client_error e with
                    | Some _ => (crashed, w)
                    | None =>
                        let w1 :=
                          update_pickup e 1 id (mark_cancelled (now e)) w in
                        let w2 := stop_dispatch e id w1 in
                        (success 200
                           [("pickupId", JS.Str id);
                            ("status", JS.Str "CANCELLED")],
                         w2)
                    end
              end
          end
      end.

Section Accepted.
Variable d : dispatcher.

(** POST /api/pickups/accepted *)
Definition accepted (e : env) (req : request) (w : world)
    : response * world :=
  let sig := signature e in
  if negb (JS.truthy (JS.get "ok" sig)) then
    (failure 401 (JS.get "error" sig), w)
  else
    let b := JS.or (body req) (JS.Obj []) in
    let pickupId := Vendor.pickupId_of b in
    let assignedVendorRef := JS.get "assignedVendorRef" b in
    if negb (JS.truthy pickupId) then
      (failure 400 Vendor.pickupId_required, w)
    else
      match confirmVendorAcceptance d e pickupId assignedVendorRef
              (emit (CallConfirm pickupId assignedVendorRef) w) with
      | (Returned result, w') =>
          if negb (JS.truthy result) then
            (failure 409 (JS.Str "Could not confirm acceptance"), w')
          else (success 200 [("pickup", result)], w')
      | (Threw, w') =>
          (failure 500 (JS.Str "Pickup accepted notify failed"), w')
      end.

End Accepted.

End Pickups.

(** ** The admin router, mounted at /api/admin *)

Module Admin.

(** [String(process.env.X || '').toLowerCase() === 'true'] *)
Definition flag_on (h : JS.host) (v : JS.value) : bool :=
  String.eqb (JS.toLowerCase (JS.String_ h (JS.or v (JS.Str "")))) "true".

Definition isAdminPortalAllowed (e : env) : bool :=
  let allowAdmin := flag_on (host e) (ALLOW_ADMIN_PORTAL e) in
  let allowDev := flag_on (host e) (ALLOW_DEV_BYPASS e) in
  allowAdmin || allowDev.

Definition admin_disabled : JS.value :=
  JS.Str "Admin portal is disabled on server. Set ALLOW_ADMIN_PORTAL=true (or ALLOW_DEV_BYPASS=true) in backend/.env.".

(** [requireAdminEnabled(req, res)]: the 403 response it sends when the
    portal is switched off, or nothing when the handler may go on. *)
Definition requireAdminEnabled (e : env) : option response :=
  if isAdminPortalAllowed e then None
  else Some (failure 403 admin_disabled).

(** [.eq('scrap_type_id', t).eq('is_active', true)] *)
Definition active_for (t : string) (r : rate_row) : bool :=
  String.eqb (scrap_type_id r) t && is_active r.

(** [update({ is_active: false })] on the rows selected by [active_for]. *)
Definition deactivate (t : string) (r : rate_row) : rate_row :=
  if active_for t r then
    mkRate (scrap_type_id r) (rate_per_kg r) false (effective_from r)
  else r.

Definition render_rate (e : env) (r : rate_row) : JS.value :=
  JS.Obj [("scrapTypeId", JS.Str (scrap_type_id r));
          ("ratePerKg", JS.Num (rate_per_kg r));
          ("effectiveFrom", JS.Str (toISOString e (effective_from r)))].

(** POST /api/admin/scrap-rates *)
Definition set_rate (e : env) (req : request) (w : world) : response * world :=
  match requireAdminEnabled e with
  | Some refusal => (refusal, w)
  | None =>
    let scrapTypeId :=
      JS.trim (JS.String_ (host e)
                 (JS.or (JS.get_opt "scrapTypeId" (body req)) (JS.Str ""))) in
    let ratePerKg := JS.Number (host e) (JS.get_opt "ratePerKg" (body req)) in
    if String.eqb scrapTypeId "" then
      (failure 400 (JS.Str "scrapTypeId is required"), w)
    else if negb (JS.isFinite ratePerKg) || JS.le_zero ratePerKg then
      (failure 400 (JS.Str "ratePerKg must be a positive number"), w)
    else
      match service_client_error e with
      | Some message =>
          (failure 500
             (JS.or (JS.Str message) (JS.Str "Admin request failed")), w)
      | None =>
          match fault e 0 with
          | Some deactErr => (failure 400 (JS.Str deactErr), w)
          | None =>
              let w1 := with_scrap_rates (map (deactivate scrapTypeId)) w in
              let row := mkRate scrapTypeId ratePerKg true (now e) in
              match fault e 1 with
              | Some error => (failure 400 (JS.Str error), w1)
              | None =>
                  let w2 := with_scrap_rates (fun rs => (rs ++ [row])%list) w1 in
                  (success 201 [("rate", render_rate e row)], w2)
              end
          end
      end
  end.

(** The scrap type and the rate a request names, as the handler reads
    them. *)
Definition requested_type (e : env) (req : request) : string :=
  JS.trim (JS.String_ (host e)
             (JS.or (JS.get_opt "scrapTypeId" (body req)) (JS.Str ""))).

Definition requested_rate (e : env) (req : request) : JS.num :=
  JS.Number (host e) (JS.get_opt "ratePerKg" (body req)).

(** A finite number above zero. *)
Definition finite_positive (n : JS.num) : bool :=
  match n with
  | JS.Fin q => JS.is_pos q
  | _ => false
  end.

End Admin.

(** ** services/dispatcher.js: the acceptance arbiter *)

Module Dispatcher.

(** Modelled from the spec: identifiers of the persisted records
    (services/dispatcher.js is not among the sources). Identifiers are text
    in the store; a value of another type names no pickup and no vendor. *)
Definition ident (v : JS.value) : option string :=
  match v with
  | JS.Str s => Some s
  | _ => None
  end.

(** Modelled from the spec: the pickup projection handed back after a
    successful transition (identifier, status, address, time slot, assigned
    vendor reference, assignment expiry). *)
Definition projection (e : env) (id : string) (p : pickup) : JS.value :=
  let opt {A} (f : A -> JS.value) (o : option A) : JS.value :=
    match o with
    | Some a => f a
    | None => JS.Null
    end in
  JS.Obj [("id", JS.Str id);
          ("status", JS.Str (status_label (status p)));
          ("address", JS.Str (address p));
          ("timeSlot", JS.Str (time_slot p));
          ("assignedVendorRef", opt JS.Str (assigned_vendor_ref p));
          ("assignmentExpiresAt",
           opt (fun t => JS.Str (toISOString e t)) (assignment_expires_at p))].

(** Modelled from the spec: the condition of the conditional transition of
    [confirmVendorAcceptance] (services/dispatcher.js is not among the
    sources): status == FINDING_VENDOR AND assignedVendorRef == vendorRef
    AND now < assignmentExpiresAt. *)
Definition may_accept (t : Z) (vendorRef : string) (p : pickup) : bool :=
  bool_decide (status p = FINDING_VENDOR)
  && bool_decide (assigned_vendor_ref p = Some vendorRef)
  && match assignment_expires_at p with
     | Some expires => t <? expires
     | None => false
     end.

(** Modelled from the spec: the write of a successful acceptance; status
    becomes ASSIGNED and assignmentExpiresAt is cleared. *)
Definition assign (p : pickup) : pickup :=
  mkPickup (customer_id p) ASSIGNED (address p) (time_slot p)
    (assigned_vendor_ref p) None (cancelled_at p) (completed_at p).

(** Modelled from the spec: invalidates the in-memory timer of a pickup
    and discards its dispatch entry. *)
Definition discard_state (id : string) (w : world) : world :=
  let w' :=
    match dispatchState w !! id with
    | Some {| timer := Some h |} => clearTimeout h w
    | _ => w
    end in
  with_dispatchState (delete id) w'.

(** Modelled from the spec: [confirmVendorAcceptance(pickupId, vendorRef)]
    of services/dispatcher.js, which is not among the sources. One
    conditional update of the persisted record, check and write in a single
    step; on success the timer is invalidated, the dispatch entry discarded
    and the projection returned; otherwise the conflict signal [null] is
    returned and nothing is written. *)
Definition confirmVendorAcceptance (e : env) (pickupId vendorRef : JS.value)
    (w : world) : completion * world :=
  match ident pickupId, ident vendorRef with
  | Some id, Some v =>
      match pickups w !! id with
      | Some p =>
          if may_accept (now e) v p then
            let p' := assign p in
            (Returned (projection e id p'),
             discard_state id (with_pickups (insert id p') w))
          else (Returned JS.Null, w)
      | None => (Returned JS.Null, w)
      end
  | _, _ => (Returned JS.Null, w)
  end.

(** Modelled from the spec: the marker returned for an ignored rejection. *)
Definition ignored : JS.value := JS.Obj [("ignored", JS.Bool true)].

Section Rejection.
(** The offer coordinator's [dispatch(pickupId)], to which a matching
    rejection hands over; it is left open here. *)
Variable dispatch : env -> string -> world -> world.

(** Modelled from the spec: [handleVendorRejection(pickupId, vendorRef)] of
    services/dispatcher.js, which is not among the sources. A rejection from
    a vendor other than the current [assignedVendorRef] returns the ignored
    marker, and so does one for a pickup the store does not hold (the route
    renders an empty result as ignored too); a matching one records an
    explicit-reject entry in the ledger, invalidates the current timer and
    redispatches. *)
Definition handleVendorRejection (e : env) (pickupId vendorRef : JS.value)
    (w : world) : completion * world :=
  match ident pickupId, ident vendorRef with
  | Some id, Some v =>
      match pickups w !! id with
      | Some p =>
          if bool_decide (assigned_vendor_ref p = Some v) then
            let w1 :=
              with_rejections
                (fun l => (l ++ [mkRejection id v ExplicitReject (now e)])%list) w in
            let w2 := discard_state id w1 in
            let w3 := dispatch e id w2 in
            (Returned
               (match pickups w3 !! id with
                | Some p' => projection e id p'
                | None => JS.Null
                end),
             w3)
          else (Returned ignored, w)
      | None => (Returned ignored, w)
      end
  | _, _ => (Returned ignored, w)
  end.

(** The dispatcher the routes are given, made of the two entry points
    above. *)
Definition service : dispatcher :=
  mkDispatcher confirmVendorAcceptance handleVendorRejection.

End Rejection.

End Dispatcher.

(** ** Fixtures *)

Module Sample.

Definition host0 : JS.host :=
  {| JS.NumberToString := fun _ => "0"; JS.StringToNumber := fun _ => JS.NaN |}.

Definition signed : JS.value := JS.Obj [("ok", JS.Bool true)].

(** An environment in which every collaborator answers: the clock reads
    [t], the vendor signature verifies, a bearer token is present, both
    clients are configured, every row is visible and no table operation
    fails. *)
Definition env_at (t : Z) : env :=
  {| host := host0;
     now := t;
     toISOString := fun _ => "";
     ALLOW_ADMIN_PORTAL := JS.Str "true";
     ALLOW_DEV_BYPASS := JS.Undefined;
     signature := signed;
     bearer := JS.Str "jwt";
     anon_client_error := None;
     service_client_error := None;
     rls_visible := fun _ _ => true;
     fault := fun _ => None;
     exposes_internal := true;
     create_pickup := fun _ w => (RpcData (JS.Str "P9"), w) |}.

Definition pickup_in (s : pickup_status) (v : option string)
    (expires : option Z) : pickup :=
  mkPickup "C1" s "12 Mill Lane" "Morning" v expires None None.

Definition world_of (p : pickup) : world :=
  {| pickups := {[ "P1" := p ]};
     rejections := [];
     dispatchState := {[ "P1" := mkEntry (assigned_vendor_ref p) (Some 7%nat) 1 ]};
     armed := {[ 7%nat ]};
     scrap_rates := [];
     vendor_backends := ∅;
     trace := [] |}.

Definition no_dispatch : env -> string -> world -> world := fun _ _ w => w.

Definition for_pickup (id : string) (b : JS.value) : request :=
  mkRequest b (JS.Str id).

End Sample.

(** ** POST /api/pickups rejects malformed bodies *)

Module CreateSpec.

(** A non-empty array. *)
Definition has_entries (v : JS.value) : bool :=
  match v with
  | JS.Arr (_ :: _) => true
  | _ => false
  end.

(** Absent, or text that is empty once trimmed. *)
Definition blank (v : JS.value) : bool :=
  match v with
  | JS.Undefined | JS.Null => true
  | JS.Str s => String.eqb (JS.trim s) ""
  | _ => false
  end.

(** Present and not a number. *)
Definition non_numeric (v : JS.value) : bool :=
  negb (JS.nullish v) && negb (JS.is_number v).

(** The malformed bodies, in the words of the interface description:
    no non-empty [items] array, no non-empty [address], no non-empty
    [timeSlot], or a [latitude] or [longitude] that is not a number. *)
Definition malformed (b : JS.value) : bool :=
  negb (has_entries (JS.get "items" b))
  || blank (JS.get "address" b)
  || blank (JS.get "timeSlot" b)
  || non_numeric (JS.get "latitude" b)
  || non_numeric (JS.get "longitude" b).

End CreateSpec.

(** ** Vocabulary of the customer routes *)

Module Lifecycle.

(** The statuses the design document calls terminal with respect to
    dispatch. *)
Definition terminal (s : pickup_status) : bool :=
  match s with
  | ASSIGNED | COMPLETED | CANCELLED | NO_VENDOR_AVAILABLE => true
  | _ => false
  end.

(** The statuses the retry handler answers with 409. *)
Definition retry_refused (s : pickup_status) : bool :=
  match s with
  | ASSIGNED | CANCELLED | COMPLETED => true
  | _ => false
  end.

(** The request gets as far as the status test of a customer route: a
    bearer token, a non-empty id, a configured anon client, and a lookup
    that finds the row [p] without error. *)
Definition reaches_status_test (e : env) (req : request) (w : world)
    (p : pickup) : Prop :=
  JS.truthy (bearer e) = true
  /\ Pickups.route_id e req <> ""
  /\ anon_client_error e = None
  /\ fault e 0 = None
  /\ Pickups.select_owned e (Pickups.route_id e req) w = Some p.

(** The timer handle held for a pickup, if any. *)
Definition timer_of (id : string) (w : world) : option nat :=
  match dispatchState w !! id with
  | Some st => timer st
  | None => None
  end.

End Lifecycle.

(** ** Vocabulary of the vendor callbacks *)

Module Arbiter.

(** The offer of pickup [pickupId] to vendor [vendorRef] is open at the
    time of the environment: the record is FINDING_VENDOR, assigned to that
    vendor, and its expiry lies strictly ahead. *)
Definition offer_open (e : env) (pickupId vendorRef : JS.value) (w : world)
    : Prop :=
  exists (id v : string) (p : pickup) (t : Z),
    Dispatcher.ident pickupId = Some id
    /\ Dispatcher.ident vendorRef = Some v
    /\ pickups w !! id = Some p
    /\ status p = FINDING_VENDOR
    /\ assigned_vendor_ref p = Some v
    /\ assignment_expires_at p = Some t
    /\ now e < t.

(** [vendorRef] is the vendor the pickup is currently assigned to. *)
Definition current_vendor (pickupId vendorRef : JS.value) (w : world)
    : Prop :=
  exists (id v : string) (p : pickup),
    Dispatcher.ident pickupId = Some id
    /\ Dispatcher.ident vendorRef = Some v
    /\ pickups w !! id = Some p
    /\ assigned_vendor_ref p = Some v.

(** A signed callback that names a pickup and a vendor. *)
Definition well_keyed (e : env) (req : request) : Prop :=
  JS.truthy (JS.get "ok" (signature e)) = true
  /\ JS.truthy (Vendor.pickupId_of (body req)) = true
  /\ JS.truthy (Vendor.vendorRef_of (body req)) = true.

(** The environment with the clock at [t]. *)
Definition at_time (t : Z) (e : env) : env :=
  mkEnv (host e) t (toISOString e) (ALLOW_ADMIN_PORTAL e) (ALLOW_DEV_BYPASS e)
    (signature e) (bearer e) (anon_client_error e) (service_client_error e)
    (rls_visible e) (fault e) (exposes_internal e) (create_pickup e).

(** A race of acceptance calls for one pickup: each call is one step
    against the store, and the list gives the order in which the steps
    land, each with the vendor it names and its arrival time. *)
Fixpoint race (e : env) (pickupId : JS.value) (calls : list (Z * JS.value))
    (w : world) : list completion * world :=
  match calls with
  | [] => ([], w)
  | (t, vendorRef) :: rest =>
      let (c, w') :=
        Dispatcher.confirmVendorAcceptance (at_time t e) pickupId vendorRef w in
      let (cs, w'') := race e pickupId rest w' in
      (c :: cs, w'')
  end.

(** No offer is out for [id]: the pickup is unknown or not FINDING_VENDOR. *)
Definition settled (id : string) (w : world) : Prop :=
  forall p : pickup, pickups w !! id = Some p -> status p <> FINDING_VENDOR.

(** The call returned a projection. *)
Definition won (c : completion) : bool :=
  match c with
  | Returned v => JS.truthy v
  | Threw => false
  end.

Definition wins (cs : list completion) : nat :=
  length (List.filter won cs).

End Arbiter.

Module Aliases.

Definition pickup_keys : list string :=
  ["pickupId"; "pickup_id"; "request_id"; "requestId"].

Definition vendor_keys : list string :=
  ["assignedVendorRef"; "vendor_id"; "vendorId"].

(** Among [keys], the body [b] carries the value [x] under the spelling
    [k] and nothing under the others. *)
Definition spelled (keys : list string) (k : string) (x b : JS.value)
    : Prop :=
  In k keys
  /\ JS.get k b = x
  /\ forall k' : string, In k' keys -> k' <> k -> JS.get k' b = JS.Undefined.

End Aliases.

(** ** The admin router: reading the current rates *)

Module Rates.

(** A row as [select('scrap_type_id,rate_per_kg,effective_from,is_active')]
    returns it; [effective_from] may be null. *)
Record rate_view : Type := mkView {
  v_type : string;
  v_rate : JS.num;
  v_from : option Z;
  v_active : bool;
}.

Definition view (r : rate_row) : rate_view :=
  mkView (scrap_type_id r) (rate_per_kg r) (Some (effective_from r))
    (is_active r).

(** [from('scrap_rates').select(...).eq('is_active', true)] *)
Definition select_active (w : world) : list rate_view :=
  map view (List.filter is_active (scrap_rates w)).

(** [r.effective_from ? new Date(r.effective_from) : new Date(0)] *)
Definition date_of (r : rate_view) : Z :=
  match v_from r with
  | Some t => t
  | None => 0
  end.

(** The body of the loop of [getActiveRateByType]. *)
Definition keep_latest (latest : gmap string rate_view) (r : rate_view)
    : gmap string rate_view :=
  match latest !! v_type r with
  | None => <[v_type r := r]> latest
  | Some prev =>
      if date_of prev <=? date_of r then <[v_type r := r]> latest
      else latest
  end.

(** The map [getActiveRateByType] builds from the selected rows. *)
Definition latest_by_type (data : list rate_view) : gmap string rate_view :=
  fold_left keep_latest data ∅.

(** [getActiveRateByType(supabase)]: the map, or the error it throws; its
    select is the [k]-th table operation of the caller. *)
Definition getActiveRateByType (e : env) (k : nat) (w : world)
    : string + gmap string rate_view :=
  match fault e k with
  | Some message => inl message
  | None => inr (latest_by_type (select_active w))
  end.

(** A row of [scrap_types] as [select('id,name')] returns it. *)
Record scrap_type : Type := mkType {
  st_id : string;
  st_name : string;
}.

(** The entry of one scrap type in the listing. *)
Definition entry (e : env) (rates : gmap string rate_view) (t : scrap_type)
    : JS.value :=
  let r := rates !! st_id t in
  JS.Obj [("id", JS.Str (st_id t));
          ("name", JS.Str (st_name t));
          ("ratePerKg",
           match r with
           | Some r => JS.Num (v_rate r)
           | None => JS.Null
           end);
          ("effectiveFrom",
           match r with
           | Some {| v_from := Some t |} => JS.Str (toISOString e t)
           | _ => JS.Null
           end)].

(** GET /api/admin/scrap-types; [types] are the rows of [scrap_types] in
    name order, as the first select returns them. *)
Definition list_types (e : env) (types : list scrap_type) (w : world)
    : response :=
  match Admin.requireAdminEnabled e with
  | Some refusal => refusal
  | None =>
      let crashed (message : string) :=
        failure 500
          (JS.or (JS.Str message) (JS.Str "Admin request failed")) in
      match service_client_error e with
      | Some message => crashed message
      | None =>
          match fault e 0 with
          | Some typesErr => failure 400 (JS.Str typesErr)
          | None =>
              match getActiveRateByType e 1 w with
              | inl message => crashed message
              | inr rates =>
                  success 200
                    [("scrapTypes", JS.Arr (map (entry e rates) types))]
              end
          end
      end
  end.

(** [r] is a row of scrap type [t]. *)
Definition of_type (t : string) (r : rate_view) : bool :=
  String.eqb (v_type r) t.

(** At most one active rate per scrap type. *)
Definition single_active (rs : list rate_row) : Prop :=
  forall t : string, (length (List.filter (Admin.active_for t) rs) <= 1)%nat.

(** Two rows that differ at most in that the second is no longer active. *)
Definition retired (r r' : rate_row) : Prop :=
  scrap_type_id r' = scrap_type_id r
  /\ rate_per_kg r' = rate_per_kg r
  /\ effective_from r' = effective_from r
  /\ (is_active r' = true -> is_active r = true).

End Rates.

(** ** Vocabulary of the further properties *)

Module Text.

Definition first_char (s : string) : option ascii :=
  match s with
  | EmptyString => None
  | String c _ => Some c
  end.

Fixpoint last_char (s : string) : option ascii :=
  match s with
  | EmptyString => None
  | String c EmptyString => Some c
  | String _ rest => last_char rest
  end.

(** No white space at either end. *)
Definition trimmed (s : string) : Prop :=
  (forall c : ascii, first_char s = Some c -> JS.is_space c = false)
  /\ (forall c : ascii, last_char s = Some c -> JS.is_space c = false).

End Text.

Module CreateArgs.

(** A number, or null. *)
Definition coordinate (v : JS.value) : Prop :=
  v = JS.Null \/ exists n : JS.num, v = JS.Num n.

(** What the [create_pickup] procedure can rely on. *)
Definition clean (a : rpc_args) : Prop :=
  p_address a <> "" /\ Text.trimmed (p_address a)
  /\ p_time_slot a <> "" /\ Text.trimmed (p_time_slot a)
  /\ (exists (x : JS.value) (xs : list JS.value), p_items a = JS.Arr (x :: xs))
  /\ coordinate (p_latitude a) /\ coordinate (p_longitude a).

(** The arguments POST /api/pickups hands to the procedure. *)
Definition of_request (e : env) (req : request) : rpc_args :=
  mkRpcArgs
    (JS.trim (JS.String_ (host e) (JS.get "address" (body req))))
    (JS.coalesce (JS.get "latitude" (body req)) JS.Null)
    (JS.coalesce (JS.get "longitude" (body req)) JS.Null)
    (JS.trim (JS.String_ (host e) (JS.get "timeSlot" (body req))))
    (JS.get "items" (body req)).

End CreateArgs.

Module Presence.

(** The signature of a vendor callback verifies. *)
Definition signed (e : env) : bool := JS.truthy (JS.get "ok" (signature e)).

(** The key a location update is stored under. *)
Definition key_of (e : env) (req : request) : string :=
  JS.String_ (host e) (Vendor.incoming_vendor_id req).

(** The row a location update writes: the preferred one when the first
    upsert goes through, the legacy one otherwise. *)
Definition row_of (e : env) (req : request) : vendor_row :=
  match fault e 0 with
  | None =>
      PreferredRow (Vendor.coordinate "latitude" req)
        (Vendor.coordinate "longitude" req) (Vendor.offer_url_of req) true
        (now e)
  | Some _ =>
      LegacyRow (Vendor.coordinate "latitude" req)
        (Vendor.coordinate "longitude" req) (Vendor.offer_url_of req) true
        (now e)
  end.

End Presence.

Module Callback.

(** The callback names the pickup and, where the route asks for it, the
    vendor. *)
Definition keyed (needs_vendor : bool) (req : request) : bool :=
  JS.truthy (Vendor.pickupId_of (body req))
  && (negb needs_vendor || JS.truthy (Vendor.vendorRef_of (body req))).

(** The guard of a signed vendor callback, read off its response: 401
    exactly for a failed signature, 400 exactly for a signed request that
    is not keyed, and in both cases the world [w] is handed back. *)
Definition guarded (e : env) (needs_vendor : bool) (req : request)
    (w : world) (out : response * world) : Prop :=
  (code out.1 = 401%nat <-> Presence.signed e = false)
  /\ (code out.1 = 400%nat <->
      Presence.signed e = true /\ keyed needs_vendor req = false)
  /\ (code out.1 = 401%nat \/ code out.1 = 400%nat -> out.2 = w).

End Callback.

Module Frame.

(** An update that keeps the customer, the address, the time slot and the
    completion date of a pickup. *)
Definition keeps_identity (f : pickup -> pickup) : Prop :=
  forall p : pickup,
    customer_id (f p) = customer_id p /\ address (f p) = address p
    /\ time_slot (f p) = time_slot p /\ completed_at (f p) = completed_at p.

(** [w'] differs from [w] at most in the offer fields, the status and the
    cancellation date of pickup [id], in the in-memory dispatch state and
    in the trace: no pickup is added or removed, the other pickups, the
    ledger, the rates and the vendor table are as before. *)
Definition only_pickup (id : string) (w w' : world) : Prop :=
  dom (pickups w') = dom (pickups w)
  /\ (forall id' : string, id' <> id -> pickups w' !! id' = pickups w !! id')
  /\ (forall p p' : pickup,
        pickups w !! id = Some p -> pickups w' !! id = Some p' ->
        customer_id p' = customer_id p /\ address p' = address p
        /\ time_slot p' = time_slot p /\ completed_at p' = completed_at p)
  /\ rejections w' = rejections w
  /\ scrap_rates w' = scrap_rates w
  /\ vendor_backends w' = vendor_backends w.

End Frame.

(** ** db/client.js and data/store.js *)

Module Store.

(** The state of db/client.js: whether the module variable [pool] holds a
    pool, and whether the [pool] property of the exports does. The exports
    object is built once, when the module is loaded, so its property keeps
    the value the variable had then. *)
Record client : Type := mkClient {
  pool : bool;
  exported_pool : bool;
}.

(** Loading the module: [process.env.DATABASE_URL || null], and a pool when
    that is set. *)
Definition load (DATABASE_URL : JS.value) : client :=
  let connectionString := JS.or DATABASE_URL JS.Null in
  mkClient (JS.truthy connectionString) (JS.truthy connectionString).

(** [initDb()]; [schema_ok] tells whether [pool.query(sql)] went through.
    On failure the pool is ended and the variable set to null. *)
Definition initDb (schema_ok : bool) (c : client) : client :=
  if negb (pool c) then c
  else if schema_ok then c
  else mkClient false (exported_pool c).

(** [query(text, params)]: what [pool.query] answers ([None] when it
    rejects), or the error thrown when there is no pool. *)
Definition query {A : Type} (c : client) (answer : option A) : option A :=
  if negb (pool c) then None else answer.

(** The state of data/store.js: the client module if [require] found it,
    the in-memory array and the id counter. *)
Record state : Type := mkState {
  db : option client;
  pickups : list JS.value;
  nextPickupId : Z;
}.

Definition fresh (client_module : option client) : state :=
  mkState client_module [] 1.

(** [a && b] *)
Definition and_ (a b : JS.value) : JS.value := if JS.truthy a then b else a.

(** [typeof v === 'string'] *)
Definition is_string (v : JS.value) : bool :=
  match v with
  | JS.Str _ => true
  | _ => false
  end.

(** [v.length] and [v[0]], the two built-in properties the store reads,
    on a [v] that is not [null] or [undefined]. *)
Definition member (k : string) (v : JS.value) : JS.value :=
  match v with
  | JS.Str s =>
      if String.eqb k "length" then
        JS.Num (JS.Fin (inject_Z (Z.of_nat (String.length s))))
      else if String.eqb k "0" then
        match s with
        | EmptyString => JS.Undefined
        | String c _ => JS.Str (String c EmptyString)
        end
      else JS.Undefined
  | JS.Arr xs =>
      if String.eqb k "0" then hd JS.Undefined xs else JS.get k v
  | _ => JS.get k v
  end.

(** The [scrapType] of the in-memory pickup; [None] when reading
    [input.scrapTypes[0].name] throws. *)
Definition scrapType_of (input : JS.value) : option JS.value :=
  let scrapTypes := JS.get "scrapTypes" input in
  if JS.truthy (and_ scrapTypes (member "length" scrapTypes)) then
    let head := member "0" scrapTypes in
    if is_string head then Some head
    else if JS.nullish head then None
    else Some (JS.get "name" head)
  else Some (JS.get "scrapType" input).

Section Postgres.
(** The transaction of [createPickup] against the database, and the rows
    the select of [getAllPickups] returns. *)
Variable pg_createPickup : JS.value -> completion.
Variable pg_select : option (list JS.value).

(** [createPickup(input)] *)
Definition createPickup (e : env) (input : JS.value) (s : state)
    : completion * state :=
  if match db s with
     | Some c => exported_pool c
     | None => false
     end
  then (pg_createPickup input, s)
  else if JS.nullish input then (Threw, s)
  else
    match scrapType_of input with
    | None => (Threw, s)
    | Some scrapType =>
        let location := JS.get "location" input in
        let pickup :=
          JS.Obj
            [("id", JS.Num (JS.Fin (inject_Z (nextPickupId s))));
             ("scrapType", scrapType);
             ("address", JS.get "address" input);
             ("timeSlot", JS.get "timeSlot" input);
             ("location",
              JS.Obj
                [("latitude",
                  JS.or (JS.get_opt "latitude" location) JS.Null);
                 ("longitude",
                  JS.or (JS.get_opt "longitude" location) JS.Null)]);
             ("status", JS.Str "REQUESTED");
             ("createdAt", JS.Str (toISOString e (now e)))] in
        (Returned pickup,
         mkState (db s) (pickups s ++ [pickup]) (nextPickupId s + 1))
    end.

(** The mapping of a selected row in [getAllPickups]. *)
Definition row_out (r : JS.value) : JS.value :=
  JS.Obj
    [("id", JS.get "id" r);
     ("address", JS.get "address" r);
     ("timeSlot", JS.get "timeSlot" r);
     ("location",
      JS.Obj [("latitude", JS.get "latitude" r);
              ("longitude", JS.get "longitude" r)]);
     ("status", JS.get "status" r);
     ("createdAt", JS.get "createdAt" r);
     ("items", JS.or (JS.get "items" r) (JS.Arr []))].

(** [getAllPickups()]: [db.query] is a function whenever the module was
    found, so the in-memory array is returned only without the module. *)
Definition getAllPickups (s : state) : completion :=
  match db s with
  | Some c =>
      match query c pg_select with
      | Some rows => Returned (JS.Arr (map row_out rows))
      | None => Threw
      end
  | None => Returned (JS.Arr (pickups s))
  end.

(** A run of [createPickup] calls, one per input. *)
Definition run_creates (e : env) (inputs : list JS.value) (s : state)
    : state :=
  fold_left (fun s input => (createPickup e input s).2) inputs s.

End Postgres.

(** The id the [i]-th pickup of the array carries. *)
Definition id_at (i : nat) : JS.value :=
  JS.Num (JS.Fin (inject_Z (Z.of_nat i + 1))).

(** The counter is one ahead of the array, and the pickup at index [i]
    carries the id [i + 1] and the status REQUESTED. *)
Definition numbered (s : state) : Prop :=
  nextPickupId s = Z.of_nat (length (pickups s)) + 1
  /\ forall (i : nat) (p : JS.value),
       pickups s !! i = Some p ->
       JS.get "id" p = id_at i /\ JS.get "status" p = JS.Str "REQUESTED".

End Store.

(** * Properties *)

(** ** POST /api/pickups rejects malformed bodies *)

Lemma has_entries_checked (v : JS.value) :
  CreateSpec.has_entries v = false ->
  negb (JS.isArray v) || JS.is_zero_length v = true.
Proof.
  destruct v as [| | | | |xs|]; try reflexivity.
  destruct xs; [reflexivity | discriminate].
Qed.

Lemma blank_checked (h : JS.host) (v : JS.value) :
  CreateSpec.blank v = true ->
  negb (JS.truthy v) || String.eqb (JS.trim (JS.String_ h v)) "" = true.
Proof.
  destruct v; simpl; try discriminate; try reflexivity.
  intros ->. apply orb_true_r.
Qed.

Lemma malformed_invalid (h : JS.host) (b : JS.value) :
  CreateSpec.malformed b = true -> Pickups.validatePickupBody h b <> None.
Proof.
  unfold CreateSpec.malformed, Pickups.validatePickupBody, CreateSpec.non_numeric.
  intros Hm.
  destruct (negb (JS.truthy b)); [discriminate |].
  destruct (CreateSpec.has_entries (JS.get "items" b)) eqn:Hitems.
  2: { rewrite (has_entries_checked _ Hitems). discriminate. }
  destruct (negb (JS.isArray _) || JS.is_zero_length _); [discriminate |].
  destruct (CreateSpec.blank (JS.get "address" b)) eqn:Haddr.
  { rewrite (blank_checked h _ Haddr). discriminate. }
  destruct (negb (JS.truthy (JS.get "address" b)) || _); [discriminate |].
  destruct (CreateSpec.blank (JS.get "timeSlot" b)) eqn:Hslot.
  { rewrite (blank_checked h _ Hslot). discriminate. }
  destruct (negb (JS.truthy (JS.get "timeSlot" b)) || _); [discriminate |].
  simpl in Hm.
  destruct (negb (JS.nullish (JS.get "latitude" b)) && _); [discriminate |].
  simpl in Hm. rewrite Hm. discriminate.
Qed.

(** C8. Every POST /api/pickups request whose body is malformed (no
    non-empty items array, no non-empty address, no non-empty timeSlot, or
    a latitude or longitude that is not a number) is answered with 400 and
    leaves the world as it was: no remote procedure is called, no pickup is
    created and no dispatch is started. *)
Theorem create_rejects_malformed (e : env) (req : request) (w : world) :
  CreateSpec.malformed (body req) = true ->
  code (Pickups.create e req w).1 = 400%nat
  /\ (Pickups.create e req w).2 = w.
Proof.
  intros Hm. unfold Pickups.create.
  destruct (Pickups.validatePickupBody (host e) (body req)) eqn:Hv.
  - split; reflexivity.
  - exfalso. exact (malformed_invalid _ _ Hm Hv).
Qed.

Lemma create_rejects_malformed_witness :
  let req :=
    mkRequest
      (JS.Obj [("items", JS.Arr [JS.Obj [("scrapTypeId", JS.Str "T1")]]);
               ("address", JS.Str "   ");
               ("timeSlot", JS.Str "Morning")])
      JS.Undefined in
  let w := Sample.world_of (Sample.pickup_in REQUESTED None None) in
  code (Pickups.create (Sample.env_at 0) req w).1 = 400%nat
  /\ (Pickups.create (Sample.env_at 0) req w).2 = w.
Proof.
  intros req w. apply (create_rejects_malformed (Sample.env_at 0) req w).
  reflexivity.
Defined.

(** A well-formed body does reach the remote procedure and the dispatcher. *)
Example create_accepts_wellformed :
  let req :=
    mkRequest
      (JS.Obj [("items", JS.Arr [JS.Obj [("scrapTypeId", JS.Str "T1")]]);
               ("address", JS.Str "12 Mill Lane");
               ("timeSlot", JS.Str "Morning")])
      JS.Undefined in
  let w := Sample.world_of (Sample.pickup_in REQUESTED None None) in
  code (Pickups.create (Sample.env_at 0) req w).1 = 201%nat
  /\ trace (Pickups.create (Sample.env_at 0) req w).2
     = [CallCreatePickup
          (mkRpcArgs "12 Mill Lane" JS.Null JS.Null "Morning"
             (JS.Arr [JS.Obj [("scrapTypeId", JS.Str "T1")]]));
        SpawnDispatch (JS.Str "P9")].
Proof. split; reflexivity. Qed.


(** ** POST /api/admin/scrap-rates keeps one active rate per type *)

Lemma finite_positive_checked (n : JS.num) :
  negb (JS.isFinite n) || JS.le_zero n = negb (Admin.finite_positive n).
Proof. destruct n; reflexivity. Qed.

Lemma deactivate_inactive (t : string) (r : rate_row) :
  Admin.active_for t (Admin.deactivate t r) = false.
Proof.
  unfold Admin.deactivate.
  destruct (Admin.active_for t r) eqn:Hr; [| exact Hr].
  unfold Admin.active_for. simpl. apply andb_false_r.
Qed.

Lemma deactivate_other (t : string) (r : rate_row) :
  scrap_type_id r <> t -> Admin.deactivate t r = r.
Proof.
  intros Hne. unfold Admin.deactivate, Admin.active_for.
  destruct (String.eqb_spec (scrap_type_id r) t); [contradiction | reflexivity].
Qed.

Lemma none_active_after_deactivate (t : string) (rs : list rate_row) :
  List.filter (Admin.active_for t) (map (Admin.deactivate t) rs) = [].
Proof.
  induction rs as [| r rs IH]; [reflexivity |].
  cbn [map List.filter]. rewrite deactivate_inactive. exact IH.
Qed.

Lemma trimmed_type_active (t : string) (n : JS.num) (at_ : Z) :
  Admin.active_for t (mkRate t n true at_) = true.
Proof. unfold Admin.active_for. simpl. rewrite String.eqb_refl. reflexivity. Qed.

(** C9. A successful POST /api/admin/scrap-rates (201) leaves the rate table
    as the old table with every active row of the given scrap type
    deactivated, followed by one new active row, so that the new row is the
    only active rate of that type; a request whose ratePerKg is not a finite
    positive number changes no row and is answered 400 (403 when the admin
    portal is switched off, which is tested first). *)
Theorem set_rate_single_active (e : env) (req : request) (w : world) :
  let t := Admin.requested_type e req in
  let rate := Admin.requested_rate e req in
  let row := mkRate t rate true (now e) in
  let out := Admin.set_rate e req w in
  (code out.1 = 201%nat ->
   scrap_rates out.2
   = (map (Admin.deactivate t) (scrap_rates w) ++ [row])%list
   /\ List.filter (Admin.active_for t) (scrap_rates out.2) = [row]
   /\ Admin.finite_positive rate = true)
  /\ (Admin.finite_positive rate = false ->
      out.2 = w
      /\ code out.1 = if Admin.isAdminPortalAllowed e then 400%nat else 403%nat).
Proof.
  intros t rate row out. subst out. unfold Admin.set_rate.
  fold (Admin.requested_type e req) (Admin.requested_rate e req).
  fold t rate. rewrite finite_positive_checked.
  unfold Admin.requireAdminEnabled.
  destruct (Admin.isAdminPortalAllowed e); simpl.
  2: { split; [discriminate | intros _; split; reflexivity]. }
  destruct (String.eqb t ""); simpl.
  { split; [discriminate | intros _; split; reflexivity]. }
  destruct (Admin.finite_positive rate) eqn:Hrate; simpl.
  2: { split; [discriminate | intros _; split; reflexivity]. }
  split; [| discriminate].
  destruct (service_client_error e); simpl; [discriminate |].
  destruct (fault e 0); simpl; [discriminate |].
  destruct (fault e 1); simpl; [discriminate |].
  intros _. split; [reflexivity |]. split; [| reflexivity].
  rewrite List.filter_app, none_active_after_deactivate. simpl.
  fold row. unfold row. rewrite trimmed_type_active. reflexivity.
Qed.

Lemma set_rate_single_active_witness :
  let e := Sample.env_at 50 in
  let req :=
    mkRequest
      (JS.Obj [("scrapTypeId", JS.Str " metal ");
               ("ratePerKg", JS.Num (JS.Fin (25 # 1)))])
      JS.Undefined in
  let w :=
    with_scrap_rates
      (fun _ => [mkRate "metal" (JS.Fin (20 # 1)) true 10;
                 mkRate "paper" (JS.Fin (8 # 1)) true 10])
      (Sample.world_of (Sample.pickup_in REQUESTED None None)) in
  scrap_rates (Admin.set_rate e req w).2
  = [mkRate "metal" (JS.Fin (20 # 1)) false 10;
     mkRate "paper" (JS.Fin (8 # 1)) true 10;
     mkRate "metal" (JS.Fin (25 # 1)) true 50]
  /\ List.filter (Admin.active_for "metal")
       (scrap_rates (Admin.set_rate e req w).2)
     = [mkRate "metal" (JS.Fin (25 # 1)) true 50]
  /\ Admin.finite_positive (JS.Fin (25 # 1)) = true.
Proof.
  intros e req w.
  exact (proj1 (set_rate_single_active e req w) eq_refl).
Defined.

(** A rate of zero is refused before any row is touched. *)
Example set_rate_refuses_zero :
  let e := Sample.env_at 50 in
  let req :=
    mkRequest
      (JS.Obj [("scrapTypeId", JS.Str "metal");
               ("ratePerKg", JS.Num (JS.Fin 0))])
      JS.Undefined in
  let w := Sample.world_of (Sample.pickup_in REQUESTED None None) in
  Admin.set_rate e req w
  = (failure 400 (JS.Str "ratePerKg must be a positive number"), w).
Proof. reflexivity. Qed.

(** With the admin portal switched off the same request is turned away
    with 403, before the rate is looked at. *)
Lemma set_rate_gate_answers_403 :
  let e :=
    mkEnv Sample.host0 50 (fun _ => "") JS.Undefined JS.Undefined
      Sample.signed JS.Undefined None None (fun _ _ => true) (fun _ => None)
      true (fun _ w => (RpcError "", w)) in
  let req :=
    mkRequest
      (JS.Obj [("scrapTypeId", JS.Str "metal");
               ("ratePerKg", JS.Num (JS.Fin 0))])
      JS.Undefined in
  let w := Sample.world_of (Sample.pickup_in REQUESTED None None) in
  Admin.finite_positive (Admin.requested_rate e req) = false
  /\ Admin.set_rate e req w = (failure 403 Admin.admin_disabled, w)
  /\ code (Admin.set_rate e req w).1 <> 400%nat.
Proof. repeat split; discriminate. Qed.

(** ** POST /api/vendor/location writes one presence row *)



(** The fallback: a missing [vendor_id] column sends the legacy row. *)
Example location_falls_back_to_legacy :
  let e :=
    mkEnv Sample.host0 90 (fun _ => "") JS.Undefined JS.Undefined
      Sample.signed JS.Undefined None None (fun _ _ => true)
      (fun k =>
         match k with
         | O => Some "column vendor_backends.vendor_id does not exist"
         | _ => None
         end)
      true (fun _ w => (RpcError "", w)) in
  let req :=
    mkRequest
      (JS.Obj [("vendor_id", JS.Str "V1");
               ("latitude", JS.Num (JS.Fin (129 # 10)));
               ("longitude", JS.Num (JS.Fin (776 # 10)))])
      JS.Undefined in
  let w := Sample.world_of (Sample.pickup_in REQUESTED None None) in
  code (Vendor.location e req w).1 = 200%nat
  /\ vendor_backends (Vendor.location e req w).2 !! "V1"
     = Some (LegacyRow (JS.Num (JS.Fin (129 # 10)))
               (JS.Num (JS.Fin (776 # 10))) JS.Null true 90).
Proof. split; reflexivity. Qed.

(** ** Customer retry and cancellation *)

Lemma retry_test_by_status (p : pickup) :
  String.eqb (Pickups.upper_status p) "ASSIGNED"
  || String.eqb (Pickups.upper_status p) "CANCELLED"
  || String.eqb (Pickups.upper_status p) "COMPLETED"
  = Lifecycle.retry_refused (status p).
Proof. unfold Pickups.upper_status. destruct (status p); reflexivity. Qed.

Lemma cancel_test_by_status (p : pickup) :
  String.eqb (Pickups.upper_status p) "COMPLETED"
  = bool_decide (status p = COMPLETED).
Proof. unfold Pickups.upper_status. destruct (status p); reflexivity. Qed.

Lemma select_owned_lookup (e : env) (id : string) (w : world) (p : pickup) :
  Pickups.select_owned e id w = Some p -> pickups w !! id = Some p.
Proof.
  unfold Pickups.select_owned. destruct (pickups w !! id) as [q |]; [| done].
  destruct (rls_visible e id q); congruence.
Qed.

Lemma stop_dispatch_pickups (e : env) (id : string) (w : world) :
  pickups (Pickups.stop_dispatch e id w) = pickups w.
Proof.
  unfold Pickups.stop_dispatch. destruct (exposes_internal e); [| reflexivity].
  destruct (dispatchState w !! id) as [[c [h |] g] |]; reflexivity.
Qed.

Lemma stop_dispatch_clears (e : env) (id : string) (w : world) :
  exposes_internal e = true ->
  dispatchState (Pickups.stop_dispatch e id w) !! id = None
  /\ forall h : nat,
       Lifecycle.timer_of id w = Some h ->
       h ∉ armed (Pickups.stop_dispatch e id w).
Proof.
  intros Hx. unfold Pickups.stop_dispatch, Lifecycle.timer_of. rewrite Hx.
  split.
  - destruct (dispatchState w !! id) as [[c [h |] g] |]; simpl;
      apply lookup_delete_eq.
  - intros h Hh.
    destruct (dispatchState w !! id) as [[c [h' |] g] |]; simpl in *;
      try discriminate.
    injection Hh as Hh. subst h'.
    rewrite elem_of_difference, elem_of_singleton. tauto.
Qed.

(** Every status outside the refused three lets the retry proceed. *)
Lemma find_vendor_proceeds (e : env) (req : request) (w : world)
    (p : pickup) :
  Lifecycle.reaches_status_test e req w p ->
  Lifecycle.retry_refused (status p) = false ->
  service_client_error e = None ->
  let id := Pickups.route_id e req in
  Pickups.find_vendor e req w
  = (success 200 [("pickupId", JS.Str id); ("status", JS.Str "FINDING_VENDOR")],
     emit (SpawnDispatch (JS.Str id))
       (Pickups.stop_dispatch e id
          (Pickups.update_pickup e 1 id Pickups.reset_offer w))).
Proof.
  intros (Hb & Hid & Ha & Hf & Hsel) Hs Hsvc id. unfold Pickups.find_vendor.
  fold id. rewrite Hb. simpl.
  destruct (String.eqb_spec id ""); [contradiction |].
  rewrite Ha, Hf. fold id in Hsel. rewrite Hsel.
  rewrite retry_test_by_status, Hs, Hsvc. reflexivity.
Qed.

Lemma stop_dispatch_trace (e : env) (id : string) (w : world) :
  trace (Pickups.stop_dispatch e id w) = trace w.
Proof.
  unfold Pickups.stop_dispatch. destruct (exposes_internal e); [| reflexivity].
  destruct (dispatchState w !! id) as [[c [h |] g] |]; reflexivity.
Qed.

Lemma update_pickup_trace (e : env) (k : nat) (id : string)
    (f : pickup -> pickup) (w : world) :
  trace (Pickups.update_pickup e k id f w) = trace w.
Proof. unfold Pickups.update_pickup. destruct (fault e k); reflexivity. Qed.

(** C3. Customer retry answers 409 for every pickup whose status is
    ASSIGNED, COMPLETED or CANCELLED and leaves the world as it was: the
    record is not written and no dispatch is started. An exhausted pickup,
    NO_VENDOR_AVAILABLE, is not refused: once the request reaches the status
    test and the service client is configured, it is answered 200 and
    exactly one dispatch is started for it; when the store applies the
    update, the record is FINDING_VENDOR with assignedVendorRef,
    assignmentExpiresAt and cancelled_at cleared; and when the dispatcher
    hands out its state map, the entry of the pickup is deleted and its
    timer is no longer armed. *)
Theorem find_vendor_refuses_decided (e : env) (req : request) (w : world)
    (p : pickup) :
  pickups w !! Pickups.route_id e req = Some p ->
  let id := Pickups.route_id e req in
  let out := Pickups.find_vendor e req w in
  (Lifecycle.retry_refused (status p) = true ->
   out.2 = w
   /\ (Lifecycle.reaches_status_test e req w p -> code out.1 = 409%nat))
  /\ (status p = NO_VENDOR_AVAILABLE ->
      Lifecycle.reaches_status_test e req w p ->
      service_client_error e = None ->
      code out.1 = 200%nat
      /\ trace out.2 = (trace w ++ [SpawnDispatch (JS.Str id)])%list
      /\ (fault e 1 = None ->
          pickups out.2 !! id
          = Some (mkPickup (customer_id p) FINDING_VENDOR (address p)
                    (time_slot p) None None None (completed_at p)))
      /\ (exposes_internal e = true ->
          dispatchState out.2 !! id = None
          /\ forall h : nat,
               Lifecycle.timer_of id w = Some h -> h ∉ armed out.2)).
Proof.
  intros Hp id out. subst out. split.
  - intros Hs. unfold Lifecycle.reaches_status_test, Pickups.find_vendor.
    fold id.
    destruct (JS.truthy (bearer e)); simpl;
      [| split; [done | intros [? _]; done]].
    destruct (String.eqb_spec id ""); simpl;
      [split; [done | intros (_ & ? & _); done] |].
    destruct (anon_client_error e); simpl;
      [split; [done | intros (_ & _ & ? & _); done] |].
    destruct (fault e 0); simpl;
      [split; [done | intros (_ & _ & _ & ? & _); done] |].
    destruct (Pickups.select_owned e id w) as [owned |] eqn:Hsel; simpl;
      [| split; [done | intros (_ & _ & _ & _ & ?); done]].
    apply select_owned_lookup in Hsel. unfold id in Hsel.
    rewrite Hp in Hsel. injection Hsel as <-.
    rewrite retry_test_by_status, Hs. simpl.
    split; [reflexivity | intros _; reflexivity].
  - intros Hs Hreach Hsvc.
    assert (Hgo : Lifecycle.retry_refused (status p) = false)
      by (rewrite Hs; reflexivity).
    rewrite (find_vendor_proceeds e req w p Hreach Hgo Hsvc). fold id.
    cbn [fst snd code success].
    split; [reflexivity |]. split; [| split].
    + simpl. rewrite stop_dispatch_trace, update_pickup_trace. reflexivity.
    + intros Hw. simpl. rewrite stop_dispatch_pickups.
      unfold Pickups.update_pickup. rewrite Hw. simpl.
      rewrite lookup_alter_eq. fold id in Hp. rewrite Hp. reflexivity.
    + intros Hx.
      destruct (stop_dispatch_clears e id
                  (Pickups.update_pickup e 1 id Pickups.reset_offer w) Hx)
        as [Hd Ht].
      split; [exact Hd |]. intros h Hh. apply Ht.
      unfold Lifecycle.timer_of, Pickups.update_pickup in *.
      destruct (fault e 1); exact Hh.
Qed.

Lemma find_vendor_refuses_decided_witness :
  let e := Sample.env_at 100 in
  let req := Sample.for_pickup "P1" JS.Undefined in
  let p := Sample.pickup_in ASSIGNED (Some "V3") None in
  let w := Sample.world_of p in
  let q := Sample.pickup_in NO_VENDOR_AVAILABLE None None in
  let v := Sample.world_of q in
  ((Pickups.find_vendor e req w).2 = w
   /\ code (Pickups.find_vendor e req w).1 = 409%nat)
  /\ (code (Pickups.find_vendor e req v).1 = 200%nat
      /\ trace (Pickups.find_vendor e req v).2 = [SpawnDispatch (JS.Str "P1")]
      /\ pickups (Pickups.find_vendor e req v).2 !! "P1"
         = Some (Sample.pickup_in FINDING_VENDOR None None)
      /\ dispatchState (Pickups.find_vendor e req v).2 !! "P1" = None
      /\ 7%nat ∉ armed (Pickups.find_vendor e req v).2).
Proof.
  intros e req p w q v.
  assert (Hreach : forall (r : pickup),
             Lifecycle.reaches_status_test e req (Sample.world_of r) r).
  { intros r. repeat split; try reflexivity.
    intros Hid. vm_compute in Hid. discriminate Hid. }
  split.
  - destruct (find_vendor_refuses_decided e req w p eq_refl) as [Hrefuse _].
    destruct (Hrefuse eq_refl) as [Hsame Hcode].
    split; [exact Hsame | exact (Hcode (Hreach p))].
  - destruct (find_vendor_refuses_decided e req v q eq_refl) as [_ Hgo].
    destruct (Hgo eq_refl (Hreach q) eq_refl)
      as (Hcode & Htrace & Hrecord & Hstate).
    destruct (Hstate eq_refl) as [Hentry Htimer].
    split; [exact Hcode |]. split; [exact Htrace |].
    split; [exact (Hrecord eq_refl) |]. split; [exact Hentry |].
    apply Htimer. reflexivity.
Defined.

(** The retry of an exhausted pickup goes through: the record is put back
    to FINDING_VENDOR with the offer fields cleared, the in-memory entry is
    dropped and a dispatch task is started, although NO_VENDOR_AVAILABLE is
    listed as terminal. *)
Lemma find_vendor_restarts_exhausted :
  let e := Sample.env_at 100 in
  let req := Sample.for_pickup "P1" JS.Undefined in
  let p := Sample.pickup_in NO_VENDOR_AVAILABLE None None in
  let w := Sample.world_of p in
  Lifecycle.terminal (status p) = true
  /\ pickups w !! "P1" = Some p
  /\ code (Pickups.find_vendor e req w).1 = 200%nat
  /\ pickups (Pickups.find_vendor e req w).2 !! "P1"
     = Some (Sample.pickup_in FINDING_VENDOR None None)
  /\ trace (Pickups.find_vendor e req w).2 = [SpawnDispatch (JS.Str "P1")]
  /\ (Pickups.find_vendor e req w).2 <> w.
Proof.
  intros e req p w. repeat split; try reflexivity.
  intros Heq. apply (f_equal trace) in Heq. discriminate Heq.
Qed.

(** C4. Customer cancellation succeeds (200) only for a pickup the caller
    owns whose status is not COMPLETED, and for every such pickup once the
    request reaches the status test and the service client is configured;
    a COMPLETED pickup is answered 409 and nothing changes. On success,
    when the store applies the update, the record is CANCELLED with
    cancelled_at set and assignedVendorRef and assignmentExpiresAt cleared;
    and when the dispatcher hands out its state map, the entry of the pickup
    is deleted and its timer is no longer armed when the handler returns. *)
Theorem cancel_unless_completed (e : env) (req : request) (w : world) :
  let id := Pickups.route_id e req in
  let out := Pickups.cancel e req w in
  (code out.1 = 200%nat ->
   exists p : pickup,
     Pickups.select_owned e id w = Some p /\ status p <> COMPLETED)
  /\ (forall p : pickup,
        Lifecycle.reaches_status_test e req w p ->
        if bool_decide (status p = COMPLETED)
        then code out.1 = 409%nat /\ out.2 = w
        else
          service_client_error e = None ->
          code out.1 = 200%nat
          /\ (fault e 1 = None ->
              pickups out.2 !! id
              = Some (mkPickup (customer_id p) CANCELLED (address p)
                        (time_slot p) None None (Some (now e))
                        (completed_at p)))
          /\ (exposes_internal e = true ->
              dispatchState out.2 !! id = None
              /\ forall h : nat,
                   Lifecycle.timer_of id w = Some h -> h ∉ armed out.2)).
Proof.
  intros id out. subst out. unfold Pickups.cancel. fold id. split.
  - destruct (JS.truthy (bearer e)); simpl; [| discriminate].
    destruct (String.eqb id ""); simpl; [discriminate |].
    destruct (anon_client_error e); simpl; [discriminate |].
    destruct (fault e 0); simpl; [discriminate |].
    destruct (Pickups.select_owned e id w) as [owned |]; simpl;
      [| discriminate].
    rewrite cancel_test_by_status.
    destruct (bool_decide_reflect (status owned = COMPLETED)); simpl;
      [discriminate |].
    intros _. exists owned. split; [reflexivity | assumption].
  - intros p (Hb & Hid & Ha & Hf & Hsel). fold id in Hid, Hsel.
    rewrite Hb. simpl. destruct (String.eqb_spec id ""); [contradiction |].
    rewrite Ha, Hf, Hsel, cancel_test_by_status.
    destruct (bool_decide_reflect (status p = COMPLETED)); simpl.
    + split; reflexivity.
    + intros ->. simpl. split; [reflexivity |]. split.
      * intros Hw. rewrite stop_dispatch_pickups.
        unfold Pickups.update_pickup. rewrite Hw. simpl.
        rewrite lookup_alter_eq, (select_owned_lookup _ _ _ _ Hsel).
        reflexivity.
      * intros Hx.
        destruct (stop_dispatch_clears e id
                    (Pickups.update_pickup e 1 id
                       (Pickups.mark_cancelled (now e)) w) Hx) as [Hd Ht].
        split; [exact Hd |]. intros h Hh. apply Ht.
        unfold Lifecycle.timer_of, Pickups.update_pickup in *.
        destruct (fault e 1); exact Hh.
Qed.

Lemma cancel_unless_completed_witness :
  let e := Sample.env_at 100 in
  let req := Sample.for_pickup "P1" JS.Undefined in
  let p := Sample.pickup_in FINDING_VENDOR (Some "V1") (Some 110) in
  let w := Sample.world_of p in
  let out := Pickups.cancel e req w in
  (exists q : pickup,
     Pickups.select_owned e (Pickups.route_id e req) w = Some q
     /\ status q <> COMPLETED)
  /\ code out.1 = 200%nat
  /\ pickups out.2 !! "P1"
     = Some (mkPickup "C1" CANCELLED "12 Mill Lane" "Morning" None None
               (Some 100) None)
  /\ dispatchState out.2 !! "P1" = None
  /\ 7%nat ∉ armed out.2.
Proof.
  intros e req p w out.
  destruct (cancel_unless_completed e req w) as [Honly Hall].
  split; [exact (Honly eq_refl) |].
  assert (Hreach : Lifecycle.reaches_status_test e req w p).
  { repeat split; try reflexivity.
    intros Hid. vm_compute in Hid. discriminate Hid. }
  destruct (Hall p Hreach eq_refl) as (Hcode & Hrecord & Hstate).
  destruct (Hstate eq_refl) as [Hentry Htimer].
  split; [exact Hcode |]. split; [exact (Hrecord eq_refl) |].
  split; [exact Hentry |]. apply Htimer. reflexivity.
Defined.

(** An ASSIGNED pickup, outside REQUESTED and FINDING_VENDOR, is cancelled
    all the same. *)
Lemma cancel_accepts_assigned :
  let e := Sample.env_at 100 in
  let req := Sample.for_pickup "P1" JS.Undefined in
  let p := Sample.pickup_in ASSIGNED (Some "V3") None in
  let w := Sample.world_of p in
  pickups w !! "P1" = Some p
  /\ status p <> REQUESTED
  /\ status p <> FINDING_VENDOR
  /\ code (Pickups.cancel e req w).1 = 200%nat
  /\ pickups (Pickups.cancel e req w).2 !! "P1"
     = Some (mkPickup "C1" CANCELLED "12 Mill Lane" "Morning" None None
               (Some 100) None).
Proof. intros e req p w. repeat split; try reflexivity; discriminate. Qed.

(** ** The acceptance arbiter *)

Lemma may_accept_true (t : Z) (v : string) (p : pickup) :
  Dispatcher.may_accept t v p = true <->
  status p = FINDING_VENDOR
  /\ assigned_vendor_ref p = Some v
  /\ exists t' : Z, assignment_expires_at p = Some t' /\ t < t'.
Proof.
  unfold Dispatcher.may_accept.
  rewrite !andb_true_iff, !bool_decide_eq_true.
  destruct (assignment_expires_at p) as [t' |].
  - rewrite Z.ltb_lt. split.
    + intros [[Hs Ha] Ht]. eauto.
    + intros (Hs & Ha & t'' & Ht'' & Hlt). injection Ht'' as <-. tauto.
  - split; [intros [_ ?]; discriminate | intros (_ & _ & t' & ? & _); discriminate].
Qed.

(** The two outcomes of [confirmVendorAcceptance]. *)
Lemma confirm_cases (e : env) (pickupId vendorRef : JS.value) (w : world) :
  (Arbiter.offer_open e pickupId vendorRef w
   /\ exists (id : string) (p : pickup),
       Dispatcher.ident pickupId = Some id
       /\ pickups w !! id = Some p
       /\ Dispatcher.confirmVendorAcceptance e pickupId vendorRef w
          = (Returned (Dispatcher.projection e id (Dispatcher.assign p)),
             Dispatcher.discard_state id
               (with_pickups (insert id (Dispatcher.assign p)) w)))
  \/ (~ Arbiter.offer_open e pickupId vendorRef w
      /\ Dispatcher.confirmVendorAcceptance e pickupId vendorRef w
         = (Returned JS.Null, w)).
Proof.
  unfold Dispatcher.confirmVendorAcceptance, Arbiter.offer_open.
  destruct (Dispatcher.ident pickupId) as [id |] eqn:Hid.
  2: { right. split; [| reflexivity]. intros (? & ? & ? & ? & ? & _). done. }
  destruct (Dispatcher.ident vendorRef) as [v |] eqn:Hv.
  2: { right. split; [| reflexivity]. intros (? & ? & ? & ? & _ & ? & _). done. }
  destruct (pickups w !! id) as [p |] eqn:Hp.
  2: { right. split; [| reflexivity].
       intros (id' & ? & ? & ? & Hid' & _ & Hp' & _).
       injection Hid' as <-. congruence. }
  destruct (Dispatcher.may_accept (now e) v p) eqn:Hm.
  - left. apply may_accept_true in Hm as (Hs & Ha & t & Ht & Hlt). split.
    + exists id, v, p, t. tauto.
    + exists id, p. tauto.
  - right. split; [| reflexivity].
    intros (id' & v' & p' & t & Hid' & Hv' & Hp' & Hs & Ha & Ht & Hlt).
    injection Hid' as <-. injection Hv' as <-.
    rewrite Hp in Hp'. injection Hp' as <-.
    assert (Dispatcher.may_accept (now e) v p = true); [| congruence].
    apply may_accept_true. eauto.
Qed.

Lemma body_or_empty (k : string) (b : JS.value) :
  JS.get k (JS.or b (JS.Obj [])) = JS.get k b.
Proof.
  unfold JS.or. destruct (JS.truthy b) eqn:Hb; [reflexivity |].
  destruct b; try reflexivity; discriminate.
Qed.

Lemma pickupId_of_body (b : JS.value) :
  Vendor.pickupId_of (JS.or b (JS.Obj [])) = Vendor.pickupId_of b.
Proof. unfold Vendor.pickupId_of. rewrite !body_or_empty. reflexivity. Qed.

Lemma vendorRef_of_body (b : JS.value) :
  Vendor.vendorRef_of (JS.or b (JS.Obj [])) = Vendor.vendorRef_of b.
Proof. unfold Vendor.vendorRef_of. rewrite !body_or_empty. reflexivity. Qed.

(** What POST /api/vendor/accept does with a well keyed callback. *)
Lemma accept_well_keyed (d : dispatcher) (e : env) (req : request)
    (w : world) :
  Arbiter.well_keyed e req ->
  let pid := Vendor.pickupId_of (body req) in
  let v := Vendor.vendorRef_of (body req) in
  Vendor.accept d e req w
  = match confirmVendorAcceptance d e pid v (emit (CallConfirm pid v) w) with
    | (Returned result, w') =>
        if negb (JS.truthy result) then
          (failure 409
             (JS.Str "Pickup not found, not assigned to this vendor, or already assigned"),
           w')
        else (success 200 [("pickup", result)], w')
    | (Threw, w') => (failure 500 (JS.Str "Vendor accept failed"), w')
    end.
Proof.
  intros (Hsig & Hp & Hv) pid v. unfold Vendor.accept.
  rewrite Hsig, pickupId_of_body, vendorRef_of_body, Hp, Hv. reflexivity.
Qed.

(** The open offer does not look at the trace. *)
Lemma offer_open_emit (e : env) (pid v : JS.value) (ev : event) (w : world) :
  Arbiter.offer_open e pid v (emit ev w) <-> Arbiter.offer_open e pid v w.
Proof. reflexivity. Qed.

(** C1. [confirmVendorAcceptance(pickupId, vendorRef)] succeeds only while
    the offer is open: the status is FINDING_VENDOR, assignedVendorRef
    equals vendorRef and the time is strictly before assignmentExpiresAt.
    Otherwise, and in particular at or after assignmentExpiresAt, it
    returns the conflict signal and writes nothing; POST /api/vendor/accept
    then answers 409, the pickup table, the ledger and the dispatch state
    being as before. *)
Theorem accept_only_while_offer_open
    (dispatch : env -> string -> world -> world) (e : env) (req : request)
    (w : world) :
  let d := Dispatcher.service dispatch in
  let pid := Vendor.pickupId_of (body req) in
  let v := Vendor.vendorRef_of (body req) in
  let out := Vendor.accept d e req w in
  (forall (pickupId vendorRef : JS.value) (w0 : world),
      let r := Dispatcher.confirmVendorAcceptance e pickupId vendorRef w0 in
      (Arbiter.won r.1 = true /\ Arbiter.offer_open e pickupId vendorRef w0)
      \/ (r = (Returned JS.Null, w0)
          /\ ~ Arbiter.offer_open e pickupId vendorRef w0))
  /\ (forall (id : string) (p : pickup) (t : Z) (vendorRef : JS.value),
        pickups w !! id = Some p ->
        assignment_expires_at p = Some t ->
        t <= now e ->
        Dispatcher.confirmVendorAcceptance e (JS.Str id) vendorRef w
        = (Returned JS.Null, w))
  /\ (Arbiter.well_keyed e req ->
      (code out.1 = 200%nat /\ Arbiter.offer_open e pid v w)
      \/ (code out.1 = 409%nat
          /\ ~ Arbiter.offer_open e pid v w
          /\ out.2 = emit (CallConfirm pid v) w
          /\ pickups out.2 = pickups w)).
Proof.
  intros d pid v out. split; [| split].
  - intros pickupId vendorRef w0 r. subst r.
    destruct (confirm_cases e pickupId vendorRef w0)
      as [[Hopen (id & p & _ & _ & ->)] | [Hclosed ->]].
    + left. split; [reflexivity | exact Hopen].
    + right. split; [reflexivity | exact Hclosed].
  - intros id p t vendorRef Hp Ht Hle.
    destruct (confirm_cases e (JS.Str id) vendorRef w)
      as [[Hopen _] | [_ ->]]; [| reflexivity].
    destruct Hopen as (id' & v' & p' & t' & Hid & _ & Hp' & _ & _ & Ht' & Hlt).
    injection Hid as <-. rewrite Hp in Hp'. injection Hp' as <-.
    rewrite Ht in Ht'. injection Ht' as <-. lia.
  - intros Hk. subst out. rewrite (accept_well_keyed d e req w Hk).
    fold pid v. subst d. simpl.
    destruct (confirm_cases e pid v (emit (CallConfirm pid v) w))
      as [[Hopen (id & p & _ & _ & ->)] | [Hclosed ->]]; simpl.
    + left. split; [reflexivity |]. apply offer_open_emit in Hopen. exact Hopen.
    + right. repeat split; try reflexivity.
      intros Hopen. apply Hclosed. apply offer_open_emit. exact Hopen.
Qed.

Lemma accept_only_while_offer_open_witness :
  let e := Sample.env_at 110 in
  let req :=
    mkRequest (JS.Obj [("request_id", JS.Str "P1"); ("vendor_id", JS.Str "V1")])
      JS.Undefined in
  let w := Sample.world_of (Sample.pickup_in FINDING_VENDOR (Some "V1") (Some 110)) in
  Dispatcher.confirmVendorAcceptance e (JS.Str "P1") (JS.Str "V1") w
  = (Returned JS.Null, w)
  /\ ((code (Vendor.accept (Dispatcher.service Sample.no_dispatch) e req w).1
       = 200%nat
       /\ Arbiter.offer_open e (JS.Str "P1") (JS.Str "V1") w)
      \/ (code (Vendor.accept (Dispatcher.service Sample.no_dispatch) e req w).1
          = 409%nat
          /\ ~ Arbiter.offer_open e (JS.Str "P1") (JS.Str "V1") w
          /\ (Vendor.accept (Dispatcher.service Sample.no_dispatch) e req w).2
             = emit (CallConfirm (JS.Str "P1") (JS.Str "V1")) w
          /\ pickups
               (Vendor.accept (Dispatcher.service Sample.no_dispatch) e req w).2
             = pickups w)).
Proof.
  intros e req w.
  destruct (accept_only_while_offer_open Sample.no_dispatch e req w)
    as (_ & Hexp & Hroute).
  split.
  - apply (Hexp "P1" (Sample.pickup_in FINDING_VENDOR (Some "V1") (Some 110))
             110 (JS.Str "V1")); [reflexivity | reflexivity | simpl; lia].
  - apply Hroute. repeat split.
Defined.

(** The scenario of the design document: V3 accepts in time, V1 comes late. *)
Example accept_scenario :
  let d := Dispatcher.service Sample.no_dispatch in
  let w := Sample.world_of (Sample.pickup_in FINDING_VENDOR (Some "V3") (Some 22)) in
  let by_v3 :=
    mkRequest (JS.Obj [("pickupId", JS.Str "P1"); ("vendor_id", JS.Str "V3")])
      JS.Undefined in
  let by_v1 :=
    mkRequest (JS.Obj [("pickupId", JS.Str "P1"); ("vendor_id", JS.Str "V1")])
      JS.Undefined in
  let after_v3 := Vendor.accept d (Sample.env_at 13) by_v3 w in
  let after_v1 := Vendor.accept d (Sample.env_at 14) by_v1 after_v3.2 in
  code after_v3.1 = 200%nat
  /\ pickups after_v3.2 !! "P1" = Some (Sample.pickup_in ASSIGNED (Some "V3") None)
  /\ dispatchState after_v3.2 !! "P1" = None
  /\ armed after_v3.2 = ∅
  /\ code after_v1.1 = 409%nat
  /\ pickups after_v1.2 = pickups after_v3.2.
Proof. repeat split; reflexivity. Qed.

(** ** Rejections from a vendor that is not the current one *)

(** C5. [handleVendorRejection(pickupId, vendorRef)] with a vendorRef that
    is not the pickup's current assignedVendorRef returns the ignored
    marker and changes nothing: no ledger entry, no timer change, no
    redispatch. POST /api/vendor/reject answers 200 with the result
    [{ ignored: true }]. *)
Theorem stale_rejection_ignored
    (dispatch : env -> string -> world -> world) (e : env)
    (pickupId vendorRef : JS.value) (w : world) :
  ~ Arbiter.current_vendor pickupId vendorRef w ->
  Dispatcher.handleVendorRejection dispatch e pickupId vendorRef w
  = (Returned (JS.Obj [("ignored", JS.Bool true)]), w)
  /\ forall req : request,
       Arbiter.well_keyed e req ->
       Vendor.pickupId_of (body req) = pickupId ->
       Vendor.vendorRef_of (body req) = vendorRef ->
       Vendor.reject (Dispatcher.service dispatch) e req w
       = (success 200 [("result", JS.Obj [("ignored", JS.Bool true)])],
          emit (CallReject pickupId vendorRef) w).
Proof.
  intros Hstale.
  assert (Hcall : forall w0 : world,
             pickups w0 = pickups w ->
             Dispatcher.handleVendorRejection dispatch e pickupId vendorRef w0
             = (Returned (JS.Obj [("ignored", JS.Bool true)]), w0)).
  { intros w0 Hw0. unfold Dispatcher.handleVendorRejection.
    destruct (Dispatcher.ident pickupId) as [id |] eqn:Hid; [| reflexivity].
    destruct (Dispatcher.ident vendorRef) as [v |] eqn:Hv; [| reflexivity].
    rewrite Hw0. destruct (pickups w !! id) as [p |] eqn:Hp; [| reflexivity].
    destruct (bool_decide_reflect (assigned_vendor_ref p = Some v)) as [Ha |];
      [| reflexivity].
    exfalso. apply Hstale. exists id, v, p. tauto. }
  split; [apply Hcall; reflexivity |].
  intros req (Hsig & Hp & Hv) Hpid Hvid. unfold Vendor.reject.
  rewrite Hsig, pickupId_of_body, vendorRef_of_body, Hp, Hv, Hpid, Hvid.
  simpl. rewrite Hcall; reflexivity.
Qed.

Lemma stale_rejection_ignored_witness :
  let e := Sample.env_at 12 in
  let w := Sample.world_of (Sample.pickup_in FINDING_VENDOR (Some "V2") (Some 20)) in
  let req :=
    mkRequest (JS.Obj [("pickup_id", JS.Str "P1"); ("vendorId", JS.Str "V1")])
      JS.Undefined in
  Dispatcher.handleVendorRejection Sample.no_dispatch e (JS.Str "P1")
    (JS.Str "V1") w
  = (Returned (JS.Obj [("ignored", JS.Bool true)]), w)
  /\ Vendor.reject (Dispatcher.service Sample.no_dispatch) e req w
     = (success 200 [("result", JS.Obj [("ignored", JS.Bool true)])],
        emit (CallReject (JS.Str "P1") (JS.Str "V1")) w).
Proof.
  intros e w req.
  destruct (stale_rejection_ignored Sample.no_dispatch e (JS.Str "P1")
              (JS.Str "V1") w) as [Hcall Hroute].
  - intros (id & v & p & Hid & Hv & Hp & Ha).
    injection Hid as Hid. injection Hv as Hv. subst id v.
    vm_compute in Hp. injection Hp as Hp. subst p. discriminate Ha.
  - split; [exact Hcall |].
    apply (Hroute req); [repeat split | reflexivity | reflexivity].
Defined.

(** A rejection from the current vendor is recorded and handed to the
    coordinator. *)
Example current_rejection_recorded :
  let e := Sample.env_at 12 in
  let w := Sample.world_of (Sample.pickup_in FINDING_VENDOR (Some "V2") (Some 20)) in
  let out :=
    Dispatcher.handleVendorRejection Sample.no_dispatch e (JS.Str "P1")
      (JS.Str "V2") w in
  rejections out.2 = [mkRejection "P1" "V2" ExplicitReject 12]
  /\ dispatchState out.2 !! "P1" = None.
Proof. split; reflexivity. Qed.

(** ** Racing acceptances *)

Lemma confirm_settled (e : env) (id : string) (v : JS.value) (w : world) :
  Arbiter.settled id w ->
  Dispatcher.confirmVendorAcceptance e (JS.Str id) v w = (Returned JS.Null, w).
Proof.
  intros Hs.
  destruct (confirm_cases e (JS.Str id) v w) as [[Hopen _] | [_ ->]];
    [| reflexivity].
  destruct Hopen as (id' & _ & p & _ & Hid & _ & Hp & Hst & _).
  injection Hid as Hid. subst id'. destruct (Hs p Hp Hst).
Qed.

Lemma race_settled (e : env) (id : string) (calls : list (Z * JS.value))
    (w : world) :
  Arbiter.settled id w ->
  Arbiter.race e (JS.Str id) calls w
  = (map (fun _ => Returned JS.Null) calls, w).
Proof.
  intros Hs. induction calls as [| [t v] calls IH]; [reflexivity |].
  cbn [Arbiter.race map]. rewrite (confirm_settled _ _ _ _ Hs), IH.
  reflexivity.
Qed.

Lemma race_unkeyed (e : env) (pid : JS.value) (calls : list (Z * JS.value))
    (w : world) :
  Dispatcher.ident pid = None ->
  Arbiter.race e pid calls w = (map (fun _ => Returned JS.Null) calls, w).
Proof.
  intros Hid. induction calls as [| [t v] calls IH]; [reflexivity |].
  cbn [Arbiter.race map]. unfold Dispatcher.confirmVendorAcceptance at 1.
  rewrite Hid, IH. reflexivity.
Qed.

Lemma wins_conflicts {A : Type} (l : list A) :
  Arbiter.wins (map (fun _ => Returned JS.Null) l) = 0%nat.
Proof. induction l as [| a l IH]; [reflexivity | exact IH]. Qed.

Lemma conflicts_only {A : Type} (l : list A) (c : completion) :
  In c (map (fun _ => Returned JS.Null) l) -> c = Returned JS.Null.
Proof. rewrite in_map_iff. intros (_ & <- & _). reflexivity. Qed.

Lemma discard_state_pickups (id : string) (w : world) :
  pickups (Dispatcher.discard_state id w) = pickups w.
Proof.
  unfold Dispatcher.discard_state.
  destruct (dispatchState w !! id) as [[c [h |] g] |]; reflexivity.
Qed.

Lemma settled_after_win (id : string) (p : pickup) (w : world) :
  Arbiter.settled id
    (Dispatcher.discard_state id
       (with_pickups (insert id (Dispatcher.assign p)) w)).
Proof.
  intros q Hq. rewrite discard_state_pickups in Hq. simpl in Hq.
  rewrite lookup_insert_eq in Hq. injection Hq as Hq. subst q.
  discriminate.
Qed.

(** One step of a race: the call loses and leaves the world alone, or it
    wins and settles the pickup. *)
Lemma race_step (e : env) (id : string) (v : JS.value) (w : world) :
  Dispatcher.confirmVendorAcceptance e (JS.Str id) v w = (Returned JS.Null, w)
  \/ exists (c : completion) (w' : world),
       Dispatcher.confirmVendorAcceptance e (JS.Str id) v w = (c, w')
       /\ Arbiter.won c = true /\ Arbiter.settled id w'.
Proof.
  destruct (confirm_cases e (JS.Str id) v w)
    as [[_ (id' & p & Hid & _ & Heq)] | [_ Heq]]; [| left; exact Heq].
  injection Hid as Hid. subst id'. right. eexists _, _.
  split; [exact Heq |]. split; [reflexivity | apply settled_after_win].
Qed.

Lemma race_results (e : env) (pid : JS.value) (calls : list (Z * JS.value))
    (w : world) :
  let cs := (Arbiter.race e pid calls w).1 in
  (Arbiter.wins cs <= 1)%nat
  /\ forall c : completion, In c cs -> Arbiter.won c = false -> c = Returned JS.Null.
Proof.
  destruct (Dispatcher.ident pid) as [id |] eqn:Hid.
  2: { intros cs. subst cs. rewrite (race_unkeyed _ _ _ _ Hid). simpl.
       rewrite wins_conflicts. split; [lia |].
       intros c Hc _. exact (conflicts_only _ _ Hc). }
  destruct pid; try discriminate. injection Hid as ->.
  revert w. induction calls as [| [t v] calls IH]; intros w cs; subst cs.
  - simpl. split; [unfold Arbiter.wins; simpl; lia | intros c []].
  - cbn [Arbiter.race].
    destruct (race_step (Arbiter.at_time t e) id v w)
      as [-> | (c & w' & -> & Hwon & Hset)].
    + destruct (IH w) as [Hle Hrest].
      destruct (Arbiter.race e (JS.Str id) calls w) as [cs w''] eqn:Hr.
      simpl in *. split; [exact Hle |].
      intros c [<- | Hc] Hl; [reflexivity | exact (Hrest c Hc Hl)].
    + rewrite (race_settled _ _ _ _ Hset). simpl.
      unfold Arbiter.wins. simpl. rewrite Hwon. simpl.
      fold (Arbiter.wins (map (fun _ => Returned JS.Null) calls)).
      rewrite wins_conflicts. split; [lia |].
      intros c' [<- | Hc] Hl; [congruence | exact (conflicts_only _ _ Hc)].
Qed.

Lemma race_assignee_wins (e : env) (id v : string) (p : pickup) (t : Z)
    (calls : list (Z * JS.value)) (w : world) :
  pickups w !! id = Some p ->
  status p = FINDING_VENDOR ->
  assigned_vendor_ref p = Some v ->
  assignment_expires_at p = Some t ->
  (exists tc : Z, In (tc, JS.Str v) calls /\ tc < t) ->
  Arbiter.wins (Arbiter.race e (JS.Str id) calls w).1 = 1%nat.
Proof.
  intros Hp Hs Ha Ht. induction calls as [| [tc u] calls IH].
  - intros (tc & [] & _).
  - intros (tv & Hin & Hlt). cbn [Arbiter.race].
    destruct (race_step (Arbiter.at_time tc e) id u w)
      as [Hlose | (c & w' & -> & Hwon & Hset)].
    + rewrite Hlose. destruct Hin as [Heq | Hin].
      * exfalso. injection Heq as -> ->. revert Hlose.
        unfold Dispatcher.confirmVendorAcceptance. simpl. rewrite Hp.
        assert (Hm : Dispatcher.may_accept tv v p = true).
        { apply may_accept_true. eauto. }
        rewrite Hm. discriminate.
      * assert (IH' := IH (ex_intro _ tv (conj Hin Hlt))).
        destruct (Arbiter.race e (JS.Str id) calls w) as [cs w''].
        simpl in *. exact IH'.
    + rewrite (race_settled _ _ _ _ Hset). simpl.
      unfold Arbiter.wins. simpl. rewrite Hwon. simpl.
      fold (Arbiter.wins (map (fun _ => Returned JS.Null) calls)).
      rewrite wins_conflicts. reflexivity.
Qed.

Lemma race_winner_assigned (e : env) (id : string)
    (calls : list (Z * JS.value)) (w : world) :
  Arbiter.wins (Arbiter.race e (JS.Str id) calls w).1 = 1%nat ->
  exists p : pickup,
    pickups (Arbiter.race e (JS.Str id) calls w).2 !! id = Some p
    /\ status p = ASSIGNED.
Proof.
  revert w. induction calls as [| [t v] calls IH]; intros w.
  - discriminate.
  - cbn [Arbiter.race].
    destruct (confirm_cases (Arbiter.at_time t e) (JS.Str id) v w)
      as [[_ (id' & p & Hid & _ & ->)] | [_ ->]].
    + injection Hid as Hid. subst id'.
      rewrite (race_settled _ _ _ _ (settled_after_win id p w)).
      cbn [fst snd]. intros _. exists (Dispatcher.assign p).
      rewrite discard_state_pickups. simpl. rewrite lookup_insert_eq.
      split; reflexivity.
    + specialize (IH w).
      destruct (Arbiter.race e (JS.Str id) calls w) as [cs w'']. exact IH.
Qed.

(** C2. Whatever the order in which racing [confirmVendorAcceptance] calls
    for one pickup land, each being one conditional update, at most one of
    them succeeds, leaving the pickup ASSIGNED, and every other call
    returns the conflict signal; exactly one succeeds when the pickup is
    FINDING_VENDOR and its assigned vendor is among the callers with a call
    that arrives before assignmentExpiresAt. *)
Theorem at_most_one_acceptance (e : env) (pickupId : JS.value)
    (calls : list (Z * JS.value)) (w : world) :
  let cs := (Arbiter.race e pickupId calls w).1 in
  (Arbiter.wins cs <= 1)%nat
  /\ (forall c : completion,
        In c cs -> Arbiter.won c = false -> c = Returned JS.Null)
  /\ (forall (id v : string) (p : pickup) (t : Z),
        pickupId = JS.Str id ->
        pickups w !! id = Some p ->
        status p = FINDING_VENDOR ->
        assigned_vendor_ref p = Some v ->
        assignment_expires_at p = Some t ->
        (exists tc : Z, In (tc, JS.Str v) calls /\ tc < t) ->
        Arbiter.wins cs = 1%nat)
  /\ (forall id : string,
        pickupId = JS.Str id ->
        Arbiter.wins cs = 1%nat ->
        exists p : pickup,
          pickups (Arbiter.race e pickupId calls w).2 !! id = Some p
          /\ status p = ASSIGNED).
Proof.
  intros cs. destruct (race_results e pickupId calls w) as [Hle Hrest].
  split; [exact Hle |]. split; [exact Hrest |]. split.
  - intros id v p t -> Hp Hs Ha Ht Hin.
    exact (race_assignee_wins e id v p t calls w Hp Hs Ha Ht Hin).
  - intros id ->. apply race_winner_assigned.
Qed.

Lemma at_most_one_acceptance_witness :
  let e := Sample.env_at 0 in
  let calls := [(12, JS.Str "V1"); (13, JS.Str "V3"); (14, JS.Str "V2")] in
  let w := Sample.world_of (Sample.pickup_in FINDING_VENDOR (Some "V3") (Some 22)) in
  Arbiter.wins (Arbiter.race e (JS.Str "P1") calls w).1 = 1%nat.
Proof.
  intros e calls w.
  destruct (at_most_one_acceptance e (JS.Str "P1") calls w)
    as (_ & _ & Hone & _).
  apply (Hone "P1" "V3" (Sample.pickup_in FINDING_VENDOR (Some "V3") (Some 22)) 22);
    try reflexivity.
  exists 13. split; [right; left; reflexivity | lia].
Defined.

(** Two distinct vendors, neither of them the assignee, race for an offered
    pickup: both calls return the conflict signal and nobody wins. *)
Lemma race_without_assignee_has_no_winner :
  let e := Sample.env_at 0 in
  let calls := [(12, JS.Str "V1"); (12, JS.Str "V2")] in
  let w := Sample.world_of (Sample.pickup_in FINDING_VENDOR (Some "V3") (Some 22)) in
  JS.Str "V1" <> JS.Str "V2"
  /\ (Arbiter.race e (JS.Str "P1") calls w).1 = [Returned JS.Null; Returned JS.Null]
  /\ Arbiter.wins (Arbiter.race e (JS.Str "P1") calls w).1 = 0%nat.
Proof. intros e calls w. split; [discriminate | split; reflexivity]. Qed.

(** ** Callbacks without a vendor identifier *)

(** On POST /api/vendor/accept a signed callback that names a pickup but
    no vendor is answered 400 and the dispatcher is not called. *)
Lemma accept_requires_vendor (d : dispatcher) (e : env) (req : request)
    (w : world) :
  JS.truthy (JS.get "ok" (signature e)) = true ->
  JS.truthy (Vendor.pickupId_of (body req)) = true ->
  JS.truthy (Vendor.vendorRef_of (body req)) = false ->
  Vendor.accept d e req w = (failure 400 Vendor.vendor_required, w).
Proof.
  intros Hsig Hp Hv. unfold Vendor.accept.
  rewrite Hsig, pickupId_of_body, vendorRef_of_body, Hp, Hv. reflexivity.
Qed.

(** POST /api/pickups/accepted has no such test: once the pickup is named,
    the dispatcher is called with whatever [assignedVendorRef] holds. *)
Lemma accepted_always_confirms (d : dispatcher) (e : env) (req : request)
    (w : world) :
  JS.truthy (JS.get "ok" (signature e)) = true ->
  JS.truthy (Vendor.pickupId_of (body req)) = true ->
  let pid := Vendor.pickupId_of (body req) in
  let v := JS.get "assignedVendorRef" (body req) in
  (Pickups.accepted d e req w).2
  = (confirmVendorAcceptance d e pid v (emit (CallConfirm pid v) w)).2
  /\ code (Pickups.accepted d e req w).1 <> 400%nat.
Proof.
  intros Hsig Hp pid v. unfold Pickups.accepted.
  rewrite Hsig, pickupId_of_body, body_or_empty, Hp. simpl. fold pid v.
  destruct (confirmVendorAcceptance d e pid v (emit (CallConfirm pid v) w))
    as [[result |] w']; simpl.
  - destruct (JS.truthy result); simpl; split; (reflexivity || discriminate).
  - split; [reflexivity | discriminate].
Qed.

(** C6. A signed callback carrying a pickupId and no vendor identifier:
    POST /api/vendor/accept answers 400 without calling the dispatcher,
    while POST /api/pickups/accepted calls [confirmVendorAcceptance] with
    [undefined] as the vendor and answers 409. *)
Theorem accepted_confirms_without_vendor :
  let e := Sample.env_at 100 in
  let d := Dispatcher.service Sample.no_dispatch in
  let req := mkRequest (JS.Obj [("pickupId", JS.Str "P1")]) JS.Undefined in
  let w := Sample.world_of (Sample.pickup_in FINDING_VENDOR (Some "V1") (Some 110)) in
  Vendor.vendorRef_of (body req) = JS.Undefined
  /\ Vendor.accept d e req w = (failure 400 Vendor.vendor_required, w)
  /\ Pickups.accepted d e req w
     = (failure 409 (JS.Str "Could not confirm acceptance"),
        emit (CallConfirm (JS.Str "P1") JS.Undefined) w).
Proof. repeat split; reflexivity. Qed.

(** ** Spellings of the identifiers *)

Lemma pickupId_spelled (k : string) (x b : JS.value) :
  Aliases.spelled Aliases.pickup_keys k x b ->
  JS.truthy (Vendor.pickupId_of b) = JS.truthy x
  /\ (JS.truthy x = true -> Vendor.pickupId_of b = x).
Proof.
  intros (Hk & Hx & Hothers). unfold Vendor.pickupId_of.
  assert (Hget : forall k' : string,
             In k' Aliases.pickup_keys ->
             JS.get k' b = if String.eqb k' k then x else JS.Undefined).
  { intros k' Hk'. destruct (String.eqb_spec k' k) as [-> | Hne];
      [exact Hx | exact (Hothers k' Hk' Hne)]. }
  rewrite !Hget by (simpl; tauto).
  simpl in Hk. unfold JS.or.
  destruct Hk as [<- | [<- | [<- | [<- | []]]]]; simpl;
    destruct (JS.truthy x) eqn:Ht; simpl; rewrite ?Ht; simpl;
    split; (reflexivity || discriminate || (intros _; reflexivity)).
Qed.

Lemma vendorRef_spelled (k : string) (x b : JS.value) :
  Aliases.spelled Aliases.vendor_keys k x b ->
  JS.truthy (Vendor.vendorRef_of b) = JS.truthy x
  /\ (JS.truthy x = true -> Vendor.vendorRef_of b = x).
Proof.
  intros (Hk & Hx & Hothers). unfold Vendor.vendorRef_of.
  assert (Hget : forall k' : string,
             In k' Aliases.vendor_keys ->
             JS.get k' b = if String.eqb k' k then x else JS.Undefined).
  { intros k' Hk'. destruct (String.eqb_spec k' k) as [-> | Hne];
      [exact Hx | exact (Hothers k' Hk' Hne)]. }
  rewrite !Hget by (simpl; tauto).
  simpl in Hk. unfold JS.or.
  destruct Hk as [<- | [<- | [<- | []]]]; simpl;
    destruct (JS.truthy x) eqn:Ht; simpl; rewrite ?Ht; simpl;
    split; (reflexivity || discriminate || (intros _; reflexivity)).
Qed.

(** A callback handler reads its body through the two identifiers only. *)
Lemma callbacks_by_identifiers (d : dispatcher) (e : env) (w : world)
    (req1 req2 : request) :
  JS.truthy (Vendor.pickupId_of (body req1))
  = JS.truthy (Vendor.pickupId_of (body req2)) ->
  (JS.truthy (Vendor.pickupId_of (body req1)) = true ->
   Vendor.pickupId_of (body req1) = Vendor.pickupId_of (body req2)) ->
  JS.truthy (Vendor.vendorRef_of (body req1))
  = JS.truthy (Vendor.vendorRef_of (body req2)) ->
  (JS.truthy (Vendor.vendorRef_of (body req1)) = true ->
   Vendor.vendorRef_of (body req1) = Vendor.vendorRef_of (body req2)) ->
  Vendor.accept d e req1 w = Vendor.accept d e req2 w
  /\ Vendor.reject d e req1 w = Vendor.reject d e req2 w.
Proof.
  intros Hpt Hp Hvt Hv. unfold Vendor.accept, Vendor.reject.
  rewrite !pickupId_of_body, !vendorRef_of_body.
  destruct (JS.truthy (JS.get "ok" (signature e))); simpl;
    [| split; reflexivity].
  rewrite <- Hpt.
  destruct (JS.truthy (Vendor.pickupId_of (body req1))) eqn:H1; simpl;
    [| split; reflexivity].
  rewrite <- Hvt.
  destruct (JS.truthy (Vendor.vendorRef_of (body req1))) eqn:H2; simpl;
    [| split; reflexivity].
  rewrite <- (Hp eq_refl), <- (Hv eq_refl). split; reflexivity.
Qed.

(** C7. Two requests to POST /api/vendor/accept, or to POST
    /api/vendor/reject, that carry the same pickup identifier under any of
    pickupId, pickup_id, request_id, requestId and the same vendor
    identifier under any of assignedVendorRef, vendor_id, vendorId produce
    the same response and the same world; when both identifiers are present
    the pair read from either body is that (pickupId, vendorRef) pair, which
    is what the dispatcher is called with. *)
Theorem aliases_normalised (d : dispatcher) (e : env) (w : world)
    (req1 req2 : request) (kp1 kp2 kv1 kv2 : string) (p v : JS.value) :
  Aliases.spelled Aliases.pickup_keys kp1 p (body req1) ->
  Aliases.spelled Aliases.pickup_keys kp2 p (body req2) ->
  Aliases.spelled Aliases.vendor_keys kv1 v (body req1) ->
  Aliases.spelled Aliases.vendor_keys kv2 v (body req2) ->
  Vendor.accept d e req1 w = Vendor.accept d e req2 w
  /\ Vendor.reject d e req1 w = Vendor.reject d e req2 w
  /\ (JS.truthy p = true ->
      JS.truthy v = true ->
      (Vendor.pickupId_of (body req1), Vendor.vendorRef_of (body req1)) = (p, v)
      /\ (Vendor.pickupId_of (body req2), Vendor.vendorRef_of (body req2))
         = (p, v)
      /\ (Arbiter.well_keyed e req1 ->
          (Vendor.accept d e req1 w).2
          = (confirmVendorAcceptance d e p v (emit (CallConfirm p v) w)).2
          /\ (Vendor.reject d e req1 w).2
             = (handleVendorRejection d e p v (emit (CallReject p v) w)).2)).
Proof.
  intros Hp1 Hp2 Hv1 Hv2.
  destruct (pickupId_spelled _ _ _ Hp1) as [Ht1 He1].
  destruct (pickupId_spelled _ _ _ Hp2) as [Ht2 He2].
  destruct (vendorRef_spelled _ _ _ Hv1) as [Hu1 Hf1].
  destruct (vendorRef_spelled _ _ _ Hv2) as [Hu2 Hf2].
  assert (Hsame := callbacks_by_identifiers d e w req1 req2).
  destruct Hsame as [Ha Hr].
  - congruence.
  - intros H. rewrite Ht1 in H. rewrite (He1 H), (He2 H). reflexivity.
  - congruence.
  - intros H. rewrite Hu1 in H. rewrite (Hf1 H), (Hf2 H). reflexivity.
  - split; [exact Ha |]. split; [exact Hr |].
    intros Hp Hv. rewrite (He1 Hp), (He2 Hp), (Hf1 Hv), (Hf2 Hv).
    split; [reflexivity |]. split; [reflexivity |].
    intros (Hsig & _ & _). unfold Vendor.accept, Vendor.reject.
    rewrite Hsig, pickupId_of_body, vendorRef_of_body, (He1 Hp), (Hf1 Hv),
      Hp, Hv.
    simpl. split.
    + destruct (confirmVendorAcceptance d e p v (emit (CallConfirm p v) w))
        as [[result |] w']; simpl; [| reflexivity].
      destruct (JS.truthy result); reflexivity.
    + destruct (handleVendorRejection d e p v (emit (CallReject p v) w))
        as [[result |] w']; reflexivity.
Qed.

Lemma aliases_normalised_witness :
  let e := Sample.env_at 13 in
  let d := Dispatcher.service Sample.no_dispatch in
  let w := Sample.world_of (Sample.pickup_in FINDING_VENDOR (Some "V3") (Some 22)) in
  let req1 :=
    mkRequest (JS.Obj [("pickupId", JS.Str "P1"); ("assignedVendorRef", JS.Str "V3")])
      JS.Undefined in
  let req2 :=
    mkRequest (JS.Obj [("vendorId", JS.Str "V3"); ("request_id", JS.Str "P1")])
      JS.Undefined in
  Vendor.accept d e req1 w = Vendor.accept d e req2 w
  /\ Vendor.reject d e req1 w = Vendor.reject d e req2 w.
Proof.
  intros e d w req1 req2.
  assert (Hspelled : forall (keys : list string) (k : string) (x : JS.value)
                       (r : request),
             In k keys ->
             JS.get k (body r) = x ->
             forallb (fun k' => String.eqb k' k
                                || match JS.get k' (body r) with
                                   | JS.Undefined => true
                                   | _ => false
                                   end) keys = true ->
             Aliases.spelled keys k x (body r)).
  { intros keys k x r Hk Hx Hall. split; [exact Hk |]. split; [exact Hx |].
    intros k' Hk' Hne. rewrite forallb_forall in Hall.
    specialize (Hall k' Hk'). apply orb_true_iff in Hall as [Heq | Hund].
    - apply String.eqb_eq in Heq. contradiction.
    - destruct (JS.get k' (body r)); try discriminate. reflexivity. }
  destruct (aliases_normalised d e w req1 req2 "pickupId" "request_id"
              "assignedVendorRef" "vendorId" (JS.Str "P1") (JS.Str "V3"))
    as (Ha & Hr & _).
  - apply Hspelled; [simpl; tauto | reflexivity | reflexivity].
  - apply Hspelled; [simpl; tauto | reflexivity | reflexivity].
  - apply Hspelled; [simpl; tauto | reflexivity | reflexivity].
  - apply Hspelled; [simpl; tauto | reflexivity | reflexivity].
  - split; [exact Ha | exact Hr].
Defined.

(** * Further properties of the handlers *)

(** ** The rate table under POST /api/admin/scrap-rates *)

(** The three worlds the handler can leave behind. *)
Lemma set_rate_outcomes (e : env) (req : request) (w : world) :
  let t := Admin.requested_type e req in
  let row := mkRate t (Admin.requested_rate e req) true (now e) in
  let out := Admin.set_rate e req w in
  (code out.1 <> 201%nat /\ out.2 = w)
  \/ (code out.1 = 400%nat
      /\ (exists message, fault e 1 = Some message)
      /\ out.2 = with_scrap_rates (map (Admin.deactivate t)) w)
  \/ (code out.1 = 201%nat
      /\ out.2
         = with_scrap_rates (fun rs => (rs ++ [row])%list)
             (with_scrap_rates (map (Admin.deactivate t)) w)).
Proof.
  intros t row out. subst out. unfold Admin.set_rate.
  fold (Admin.requested_type e req) (Admin.requested_rate e req). fold t.
  destruct (Admin.requireAdminEnabled e) as [refusal |] eqn:Hgate.
  { left. split; [| reflexivity]. unfold Admin.requireAdminEnabled in Hgate.
    destruct (Admin.isAdminPortalAllowed e); [discriminate |].
    injection Hgate as <-. discriminate. }
  destruct (String.eqb t ""); [left; split; [discriminate | reflexivity] |].
  destruct (negb _ || _); [left; split; [discriminate | reflexivity] |].
  destruct (service_client_error e);
    [left; split; [discriminate | reflexivity] |].
  destruct (fault e 0); [left; split; [discriminate | reflexivity] |].
  destruct (fault e 1) as [message |] eqn:Hins.
  - right. left. split; [reflexivity |]. split; [eauto | reflexivity].
  - right. right. split; reflexivity.
Qed.

Lemma active_other_after_deactivate (t t' : string) (rs : list rate_row) :
  t' <> t ->
  List.filter (Admin.active_for t') (map (Admin.deactivate t) rs)
  = List.filter (Admin.active_for t') rs.
Proof.
  intros Hne. induction rs as [| r rs IH]; [reflexivity |].
  cbn [map List.filter]. rewrite IH.
  unfold Admin.deactivate.
  destruct (Admin.active_for t r) eqn:Hr; [| reflexivity].
  unfold Admin.active_for in *. simpl.
  apply andb_true_iff in Hr as [Hty _]. apply String.eqb_eq in Hty.
  rewrite Hty. destruct (String.eqb_spec t t'); [congruence |]. reflexivity.
Qed.

Lemma single_active_deactivate (t : string) (rs : list rate_row) :
  Rates.single_active rs ->
  Rates.single_active (map (Admin.deactivate t) rs).
Proof.
  intros Hrs t'. destruct (String.eqb_spec t' t) as [-> | Hne].
  - rewrite none_active_after_deactivate. simpl. lia.
  - rewrite (active_other_after_deactivate _ _ _ Hne). apply Hrs.
Qed.

(** X1. Whatever POST /api/admin/scrap-rates answers, a rate table with at
    most one active rate per scrap type is left as such a table. *)
Theorem set_rate_keeps_single_active (e : env) (req : request) (w : world) :
  Rates.single_active (scrap_rates w) ->
  Rates.single_active (scrap_rates (Admin.set_rate e req w).2).
Proof.
  intros Hw.
  destruct (set_rate_outcomes e req w)
    as [[_ ->] | [(_ & _ & ->) | [_ ->]]]; simpl.
  - exact Hw.
  - apply single_active_deactivate, Hw.
  - intros t'. rewrite List.filter_app, length_app.
    set (t := Admin.requested_type e req).
    destruct (String.eqb_spec t' t) as [-> | Hne].
    + rewrite none_active_after_deactivate. simpl.
      destruct (Admin.active_for t _); simpl; lia.
    + rewrite (active_other_after_deactivate _ _ _ Hne). simpl.
      unfold Admin.active_for at 2. simpl.
      destruct (String.eqb_spec t t'); [congruence |]. simpl.
      specialize (Hw t'). lia.
Qed.

Lemma set_rate_keeps_single_active_witness :
  let e := Sample.env_at 50 in
  let req :=
    mkRequest
      (JS.Obj [("scrapTypeId", JS.Str "metal");
               ("ratePerKg", JS.Num (JS.Fin (25 # 1)))])
      JS.Undefined in
  let w :=
    with_scrap_rates
      (fun _ => [mkRate "metal" (JS.Fin (20 # 1)) true 10;
                 mkRate "paper" (JS.Fin (8 # 1)) true 10])
      (Sample.world_of (Sample.pickup_in REQUESTED None None)) in
  Rates.single_active (scrap_rates (Admin.set_rate e req w).2).
Proof.
  intros e req w. apply (set_rate_keeps_single_active e req w).
  intros t. unfold w.
  cbn [scrap_rates with_scrap_rates List.filter]. unfold Admin.active_for.
  cbn [scrap_type_id is_active].
  destruct (String.eqb_spec "metal" t) as [<- | _];
    [vm_compute; constructor |].
  destruct (String.eqb "paper" t); cbn [andb length]; repeat constructor.
Defined.

(** X2. The two writes of POST /api/admin/scrap-rates are not one
    transaction: when the insert fails after the deactivation went through,
    the request is answered 400 and the scrap type is left without any
    active rate. *)
Theorem set_rate_failed_insert_leaves_no_rate (e : env) (req : request)
    (w : world) (message : string) :
  Admin.isAdminPortalAllowed e = true ->
  Admin.requested_type e req <> "" ->
  Admin.finite_positive (Admin.requested_rate e req) = true ->
  service_client_error e = None ->
  fault e 0 = None ->
  fault e 1 = Some message ->
  let out := Admin.set_rate e req w in
  out.1 = failure 400 (JS.Str message)
  /\ scrap_rates out.2
     = map (Admin.deactivate (Admin.requested_type e req)) (scrap_rates w)
  /\ List.filter (Admin.active_for (Admin.requested_type e req))
       (scrap_rates out.2) = [].
Proof.
  intros Hgate Hty Hrate Hsvc Hf0 Hf1 out. subst out.
  unfold Admin.set_rate, Admin.requireAdminEnabled.
  fold (Admin.requested_type e req) (Admin.requested_rate e req).
  rewrite Hgate, finite_positive_checked, Hrate, Hsvc, Hf0, Hf1.
  destruct (String.eqb_spec (Admin.requested_type e req) "");
    [contradiction |].
  simpl. split; [reflexivity |]. split; [reflexivity |].
  apply none_active_after_deactivate.
Qed.

Lemma set_rate_failed_insert_leaves_no_rate_witness :
  let e :=
    mkEnv Sample.host0 50 (fun _ => "") (JS.Str "TRUE") JS.Undefined
      Sample.signed JS.Undefined None None (fun _ _ => true)
      (fun k =>
         match k with
         | 1%nat => Some "insert or update violates foreign key"
         | _ => None
         end)
      true (fun _ w => (RpcError "", w)) in
  let req :=
    mkRequest
      (JS.Obj [("scrapTypeId", JS.Str "metal");
               ("ratePerKg", JS.Num (JS.Fin (25 # 1)))])
      JS.Undefined in
  let w :=
    with_scrap_rates
      (fun _ => [mkRate "metal" (JS.Fin (20 # 1)) true 10])
      (Sample.world_of (Sample.pickup_in REQUESTED None None)) in
  (Admin.set_rate e req w).1
  = failure 400 (JS.Str "insert or update violates foreign key")
  /\ scrap_rates (Admin.set_rate e req w).2
     = [mkRate "metal" (JS.Fin (20 # 1)) false 10]
  /\ List.filter (Admin.active_for "metal")
       (scrap_rates (Admin.set_rate e req w).2) = [].
Proof.
  intros e req w.
  apply (set_rate_failed_insert_leaves_no_rate e req w
           "insert or update violates foreign key"); try reflexivity.
  intros H. vm_compute in H. discriminate H.
Defined.

Lemma deactivate_retired (t : string) (r : rate_row) :
  Rates.retired r (Admin.deactivate t r).
Proof.
  unfold Rates.retired, Admin.deactivate.
  destruct (Admin.active_for t r); simpl; repeat split; try tauto.
  discriminate.
Qed.

(** X3. The rate table is a history: POST /api/admin/scrap-rates never
    deletes, moves or re-prices a row. Every row stays at its position with
    its scrap type, rate and date, and can only go from active to inactive;
    the table grows by exactly one row on 201 and by none otherwise. *)
Theorem set_rate_keeps_history (e : env) (req : request) (w : world) :
  let out := Admin.set_rate e req w in
  (forall (i : nat) (r : rate_row),
      scrap_rates w !! i = Some r ->
      exists r' : rate_row,
        scrap_rates out.2 !! i = Some r' /\ Rates.retired r r')
  /\ length (scrap_rates out.2)
     = (length (scrap_rates w)
        + if decide (code out.1 = 201%nat) then 1 else 0)%nat.
Proof.
  intros out. subst out.
  assert (Hmap : forall (t : string) (i : nat) (r : rate_row),
             scrap_rates w !! i = Some r ->
             map (Admin.deactivate t) (scrap_rates w) !! i
             = Some (Admin.deactivate t r)).
  { intros t i r Hi. change (map (Admin.deactivate t) (scrap_rates w))
      with (Admin.deactivate t <$> scrap_rates w).
    rewrite list_lookup_fmap, Hi. reflexivity. }
  destruct (set_rate_outcomes e req w)
    as [[Hc ->] | [(Hc & _ & ->) | [Hc ->]]]; simpl.
  - split.
    + intros i r Hi. exists r. split; [exact Hi |].
      repeat split; tauto.
    + destruct (decide _); [contradiction | lia].
  - split.
    + intros i r Hi. eexists. split; [apply Hmap, Hi |].
      apply deactivate_retired.
    + rewrite length_map, Hc. simpl. lia.
  - split.
    + intros i r Hi. eexists. split.
      * rewrite lookup_app_l; [apply Hmap, Hi |].
        rewrite length_map. exact (lookup_lt_Some _ _ _ Hi).
      * apply deactivate_retired.
    + rewrite length_app, length_map, Hc. simpl. lia.
Qed.

(** ** The current rate per scrap type *)

Lemma latest_snoc (data : list Rates.rate_view) (r : Rates.rate_view) :
  Rates.latest_by_type (data ++ [r])
  = Rates.keep_latest (Rates.latest_by_type data) r.
Proof. unfold Rates.latest_by_type. rewrite fold_left_app. reflexivity. Qed.

Lemma keep_latest_other (latest : gmap string Rates.rate_view)
    (r : Rates.rate_view) (t : string) :
  Rates.v_type r <> t -> Rates.keep_latest latest r !! t = latest !! t.
Proof.
  intros Hne. unfold Rates.keep_latest.
  destruct (latest !! Rates.v_type r) as [prev |].
  - destruct (Rates.date_of prev <=? Rates.date_of r);
      [apply lookup_insert_ne, Hne | reflexivity].
  - apply lookup_insert_ne, Hne.
Qed.

Lemma keep_latest_same (latest : gmap string Rates.rate_view)
    (r : Rates.rate_view) :
  Rates.keep_latest latest r !! Rates.v_type r
  = Some match latest !! Rates.v_type r with
         | Some prev =>
             if Rates.date_of prev <=? Rates.date_of r then r else prev
         | None => r
         end.
Proof.
  unfold Rates.keep_latest.
  destruct (latest !! Rates.v_type r) as [prev |] eqn:Hprev.
  - destruct (Rates.date_of prev <=? Rates.date_of r);
      [apply lookup_insert_eq | exact Hprev].
  - apply lookup_insert_eq.
Qed.

(** X4. The rate [getActiveRateByType] reports for a scrap type is the
    row of that type with the newest effective date among the selected
    rows (a row without a date counting as the epoch), the last such row
    when several share the newest date; a type is absent from the map
    exactly when no selected row has it. *)
Theorem latest_by_type_newest (data : list Rates.rate_view) (t : string) :
  match Rates.latest_by_type data !! t with
  | None => forall r : Rates.rate_view, In r data -> Rates.v_type r <> t
  | Some r =>
      Rates.v_type r = t
      /\ exists l1 l2 : list Rates.rate_view,
          data = (l1 ++ r :: l2)%list
          /\ (forall r' : Rates.rate_view,
                In r' l1 -> Rates.v_type r' = t ->
                Rates.date_of r' <= Rates.date_of r)
          /\ (forall r' : Rates.rate_view,
                In r' l2 -> Rates.v_type r' = t ->
                Rates.date_of r' < Rates.date_of r)
  end.
Proof.
  induction data as [| x data IH] using rev_ind.
  - unfold Rates.latest_by_type. simpl. rewrite lookup_empty. intros r [].
  - rewrite latest_snoc.
    destruct (String.eqb_spec (Rates.v_type x) t) as [Hx | Hx].
    + subst t. rewrite keep_latest_same.
      destruct (Rates.latest_by_type data !! Rates.v_type x) as [prev |].
      * destruct IH as (Hprev & l1 & l2 & -> & Hl1 & Hl2).
        destruct (Z.leb_spec (Rates.date_of prev) (Rates.date_of x)).
        -- split; [reflexivity |]. exists (l1 ++ prev :: l2)%list, [].
           split; [reflexivity |]. split; [| intros r' []].
           intros r' Hin Hty. apply in_app_or in Hin as [Hin | [<- | Hin]].
           ++ specialize (Hl1 r' Hin Hty). lia.
           ++ assumption.
           ++ specialize (Hl2 r' Hin Hty). lia.
        -- split; [exact Hprev |]. exists l1, (l2 ++ [x])%list.
           split; [rewrite <- app_assoc; reflexivity |].
           split; [exact Hl1 |].
           intros r' Hin Hty. apply in_app_or in Hin as [Hin | [<- | []]].
           ++ exact (Hl2 r' Hin Hty).
           ++ assumption.
      * split; [reflexivity |]. exists data, []. split; [reflexivity |].
        split; [| intros r' []].
        intros r' Hin Hty. destruct (IH r' Hin Hty).
    + rewrite (keep_latest_other _ _ _ Hx).
      destruct (Rates.latest_by_type data !! t) as [r |].
      * destruct IH as (Hr & l1 & l2 & -> & Hl1 & Hl2).
        split; [exact Hr |]. exists l1, (l2 ++ [x])%list.
        split; [rewrite <- app_assoc; reflexivity |].
        split; [exact Hl1 |].
        intros r' Hin Hty. apply in_app_or in Hin as [Hin | [<- | []]].
        -- exact (Hl2 r' Hin Hty).
        -- contradiction.
      * intros r Hin. apply in_app_or in Hin as [Hin | [<- | []]].
        -- exact (IH r Hin).
        -- exact Hx.
Qed.

Lemma latest_of_type_only (data : list Rates.rate_view) (t : string) :
  Rates.latest_by_type data !! t
  = Rates.latest_by_type (List.filter (Rates.of_type t) data) !! t.
Proof.
  induction data as [| x data IH] using rev_ind; [reflexivity |].
  rewrite List.filter_app, latest_snoc. cbn [List.filter]. unfold Rates.of_type at 2.
  destruct (String.eqb_spec (Rates.v_type x) t) as [Hx | Hx].
  - rewrite latest_snoc. subst t. rewrite !keep_latest_same, IH. reflexivity.
  - rewrite app_nil_r, (keep_latest_other _ _ _ Hx). exact IH.
Qed.

Lemma active_views_of_type (t : string) (rs : list rate_row) :
  List.filter (Rates.of_type t) (map Rates.view (List.filter is_active rs))
  = map Rates.view (List.filter (Admin.active_for t) rs).
Proof.
  induction rs as [| r rs IH]; [reflexivity |].
  cbn [List.filter]. unfold Admin.active_for at 1.
  destruct (is_active r); cbn [map List.filter].
  - unfold Rates.of_type at 1. cbn [Rates.view Rates.v_type].
    destruct (String.eqb (scrap_type_id r) t); cbn [andb map];
      rewrite IH; reflexivity.
  - rewrite andb_false_r. exact IH.
Qed.

(** X5. After a successful POST /api/admin/scrap-rates the rate reported
    for the scrap type is the new one, dated at the request, while every
    other type is reported as before; GET /api/admin/scrap-types then shows
    the new rate in the entry of that type. *)
Theorem set_rate_then_listed (e : env) (req : request) (w : world) :
  code (Admin.set_rate e req w).1 = 201%nat ->
  let t := Admin.requested_type e req in
  let rate := Admin.requested_rate e req in
  let w' := (Admin.set_rate e req w).2 in
  let rates := Rates.latest_by_type (Rates.select_active w') in
  rates !! t = Some (Rates.mkView t rate (Some (now e)) true)
  /\ (forall t' : string,
        t' <> t ->
        rates !! t' = Rates.latest_by_type (Rates.select_active w) !! t')
  /\ (forall (e' : env) (types : list Rates.scrap_type),
        Admin.isAdminPortalAllowed e' = true ->
        service_client_error e' = None ->
        fault e' 0 = None ->
        fault e' 1 = None ->
        Rates.list_types e' types w'
        = success 200
            [("scrapTypes", JS.Arr (map (Rates.entry e' rates) types))]
        /\ forall name : string,
             Rates.entry e' rates (Rates.mkType t name)
             = JS.Obj [("id", JS.Str t); ("name", JS.Str name);
                       ("ratePerKg", JS.Num rate);
                       ("effectiveFrom", JS.Str (toISOString e' (now e)))]).
Proof.
  intros Hok t rate w' rates.
  assert (Hw' : scrap_rates w'
                = (map (Admin.deactivate t) (scrap_rates w)
                     ++ [mkRate t rate true (now e)])%list).
  { subst w'. destruct (set_rate_outcomes e req w)
      as [[Hc _] | [(Hc & _) | [_ ->]]]; [congruence | | reflexivity].
    rewrite Hc in Hok. discriminate. }
  assert (Hfor : forall t' : string,
             List.filter (Rates.of_type t') (Rates.select_active w')
             = map Rates.view
                 (List.filter (Admin.active_for t')
                    (map (Admin.deactivate t) (scrap_rates w))
                  ++ List.filter (Admin.active_for t')
                       [mkRate t rate true (now e)])).
  { intros t'. unfold Rates.select_active.
    rewrite active_views_of_type, Hw', List.filter_app. reflexivity. }
  assert (Hnew : rates !! t = Some (Rates.mkView t rate (Some (now e)) true)).
  { subst rates. rewrite latest_of_type_only, Hfor.
    rewrite none_active_after_deactivate. cbn [List.filter app].
    rewrite trimmed_type_active. unfold Rates.latest_by_type. simpl.
    unfold Rates.keep_latest. simpl. rewrite lookup_empty.
    apply lookup_insert_eq. }
  split; [exact Hnew |]. split.
  - intros t' Hne. subst rates.
    rewrite latest_of_type_only, Hfor,
      (active_other_after_deactivate _ _ _ Hne).
    cbn [List.filter]. unfold Admin.active_for at 2. simpl.
    destruct (String.eqb_spec t t'); [congruence |]. simpl.
    rewrite app_nil_r, <- active_views_of_type, <- latest_of_type_only.
    reflexivity.
  - intros e' types Hgate Hsvc Hf0 Hf1. split.
    + unfold Rates.list_types, Admin.requireAdminEnabled,
        Rates.getActiveRateByType.
      rewrite Hgate, Hsvc, Hf0, Hf1. reflexivity.
    + intros name. unfold Rates.entry. simpl. rewrite Hnew. reflexivity.
Qed.

Lemma set_rate_then_listed_witness :
  let e := Sample.env_at 50 in
  let req :=
    mkRequest
      (JS.Obj [("scrapTypeId", JS.Str "metal");
               ("ratePerKg", JS.Num (JS.Fin (25 # 1)))])
      JS.Undefined in
  let w :=
    with_scrap_rates
      (fun _ => [mkRate "metal" (JS.Fin (20 # 1)) true 10;
                 mkRate "paper" (JS.Fin (8 # 1)) true 10])
      (Sample.world_of (Sample.pickup_in REQUESTED None None)) in
  Rates.latest_by_type (Rates.select_active (Admin.set_rate e req w).2)
    !! "metal"
  = Some (Rates.mkView "metal" (JS.Fin (25 # 1)) (Some 50) true).
Proof.
  intros e req w.
  exact (proj1 (set_rate_then_listed e req w eq_refl)).
Defined.

(** ** What POST /api/pickups hands to the remote procedure *)

Lemma last_char_some (c : ascii) (s : string) :
  exists d : ascii, Text.last_char (String c s) = Some d.
Proof.
  revert c. induction s as [| b s IH]; intros c; [exists c; reflexivity |].
  destruct (IH b) as [d Hd]. exists d. exact Hd.
Qed.

Lemma first_trim_start (s : string) (c : ascii) :
  Text.first_char (JS.trim_start s) = Some c -> JS.is_space c = false.
Proof.
  induction s as [| a s IH]; [discriminate |]. simpl.
  destruct (JS.is_space a) eqn:Ha; [exact IH |].
  simpl. intros [= <-]. exact Ha.
Qed.

Lemma last_trim_start (s : string) (c : ascii) :
  Text.last_char (JS.trim_start s) = Some c -> Text.last_char s = Some c.
Proof.
  induction s as [| a s IH]; [discriminate |]. cbn [JS.trim_start].
  destruct (JS.is_space a); [| exact id].
  intros Hc. specialize (IH Hc). destruct s; [discriminate | exact IH].
Qed.

Lemma first_rev_onto (s acc : string) :
  Text.first_char (JS.rev_onto s acc)
  = match Text.last_char s with
    | Some c => Some c
    | None => Text.first_char acc
    end.
Proof.
  revert acc. induction s as [| a s IH]; intros acc; [reflexivity |].
  cbn [JS.rev_onto]. rewrite IH. destruct s as [| b s]; [reflexivity |].
  destruct (last_char_some b s) as [d Hd].
  change (Text.last_char (String a (String b s)))
    with (Text.last_char (String b s)).
  rewrite Hd. reflexivity.
Qed.

Lemma last_rev_onto (s acc : string) :
  Text.last_char (JS.rev_onto s acc)
  = match Text.last_char acc with
    | Some c => Some c
    | None => Text.first_char s
    end.
Proof.
  revert acc. induction s as [| a s IH]; intros acc.
  - simpl. destruct (Text.last_char acc); reflexivity.
  - cbn [JS.rev_onto]. rewrite IH. destruct acc as [| b acc]; [reflexivity |].
    destruct (last_char_some b acc) as [d Hd].
    change (Text.last_char (String a (String b acc)))
      with (Text.last_char (String b acc)).
    rewrite Hd. reflexivity.
Qed.

(** [trim] leaves no white space at either end. *)
Lemma trim_trimmed (s : string) : Text.trimmed (JS.trim s).
Proof.
  unfold JS.trim, JS.rev. split; intros c Hc.
  - rewrite first_rev_onto in Hc.
    destruct (Text.last_char (JS.trim_start _)) as [d |] eqn:Hd;
      [| discriminate].
    injection Hc as ->. apply last_trim_start in Hd.
    rewrite last_rev_onto in Hd. simpl in Hd.
    exact (first_trim_start _ _ Hd).
  - rewrite last_rev_onto in Hc. simpl in Hc.
    exact (first_trim_start _ _ Hc).
Qed.

Lemma valid_body_clean (e : env) (req : request) :
  Pickups.validatePickupBody (host e) (body req) = None ->
  CreateArgs.clean (CreateArgs.of_request e req).
Proof.
  unfold Pickups.validatePickupBody, CreateArgs.clean, CreateArgs.of_request.
  cbn [p_address p_time_slot p_items p_latitude p_longitude].
  set (b := body req).
  destruct (negb (JS.truthy b)); [discriminate |].
  destruct (negb (JS.isArray (JS.get "items" b)) || _) eqn:Hitems;
    [discriminate |].
  destruct (negb (JS.truthy (JS.get "address" b)) || _) eqn:Haddr;
    [discriminate |].
  destruct (negb (JS.truthy (JS.get "timeSlot" b)) || _) eqn:Hslot;
    [discriminate |].
  destruct (negb (JS.nullish (JS.get "latitude" b)) && _) eqn:Hlat;
    [discriminate |].
  destruct (negb (JS.nullish (JS.get "longitude" b)) && _) eqn:Hlng;
    [discriminate |].
  intros _.
  apply orb_false_iff in Hitems as [Harr Hlen].
  apply orb_false_iff in Haddr as [_ Haddr].
  apply orb_false_iff in Hslot as [_ Hslot].
  assert (Hcoord : forall v : JS.value,
             negb (JS.nullish v) && negb (JS.is_number v) = false ->
             CreateArgs.coordinate (JS.coalesce v JS.Null)).
  { intros v Hv. destruct v; try discriminate;
      solve [left; reflexivity | right; eexists; reflexivity]. }
  repeat split.
  - intros Heq. rewrite Heq in Haddr. discriminate.
  - apply trim_trimmed.
  - apply trim_trimmed.
  - intros Heq. rewrite Heq in Hslot. discriminate.
  - apply trim_trimmed.
  - apply trim_trimmed.
  - destruct (JS.get "items" b) as [| | | | | xs |]; try discriminate.
    destruct xs as [| x xs]; [discriminate | eauto].
  - apply Hcoord, Hlat.
  - apply Hcoord, Hlng.
Qed.

(** X6. POST /api/pickups either leaves the world alone or calls the
    [create_pickup] procedure once, for a caller with a bearer token, with a
    non-empty address and time slot that carry no white space at their
    ends, a non-empty items array and coordinates that are numbers or
    null. An error of the procedure is answered 400 or 501 and starts no
    dispatch; its data is answered 201 with that id, and a dispatch for
    exactly that id is started when the id is truthy. *)
Theorem create_calls_rpc_with_clean_args (e : env) (req : request)
    (w : world) :
  let out := Pickups.create e req w in
  let args := CreateArgs.of_request e req in
  let r := create_pickup e args (emit (CallCreatePickup args) w) in
  (out.2 = w /\ code out.1 <> 201%nat)
  \/ (CreateArgs.clean args
      /\ JS.truthy (bearer e) = true
      /\ match r.1 with
         | RpcError _ =>
             out.2 = r.2 /\ (code out.1 = 400%nat \/ code out.1 = 501%nat)
         | RpcData id =>
             out.1 = success 201 [("pickupId", id)]
             /\ out.2 = if JS.truthy id then emit (SpawnDispatch id) r.2
                        else r.2
         end).
Proof.
  intros out args r. subst out r. unfold Pickups.create.
  destruct (Pickups.validatePickupBody (host e) (body req)) eqn:Hvalid;
    [left; split; [reflexivity | discriminate] |].
  destruct (JS.truthy (bearer e)) eqn:Hjwt; simpl;
    [| left; split; [reflexivity | discriminate]].
  destruct (anon_client_error e);
    [left; split; [reflexivity | discriminate] |].
  right. split; [exact (valid_body_clean e req Hvalid) |].
  split; [reflexivity |].
  fold (CreateArgs.of_request e req). fold args.
  destruct (create_pickup e args (emit (CallCreatePickup args) w))
    as [[id | message] w']; simpl.
  - split; reflexivity.
  - destruct (JS.test_ci _ _ || JS.test_ci _ _); simpl; split; auto.
Qed.

(** ** Customer routes write one pickup *)

Lemma find_vendor_worlds (e : env) (req : request) (w : world) :
  let id := Pickups.route_id e req in
  let out := Pickups.find_vendor e req w in
  (out.2 = w /\ code out.1 <> 200%nat)
  \/ (exists p : pickup,
         Pickups.select_owned e id w = Some p
         /\ Lifecycle.retry_refused (status p) = false
         /\ code out.1 = 200%nat
         /\ out.2
            = emit (SpawnDispatch (JS.Str id))
                (Pickups.stop_dispatch e id
                   (Pickups.update_pickup e 1 id Pickups.reset_offer w))).
Proof.
  intros id out. subst out. unfold Pickups.find_vendor. fold id.
  destruct (JS.truthy (bearer e)); simpl;
    [| left; split; [reflexivity | discriminate]].
  destruct (String.eqb id ""); [left; split; [reflexivity | discriminate] |].
  destruct (anon_client_error e);
    [left; split; [reflexivity | discriminate] |].
  destruct (fault e 0); [left; split; [reflexivity | discriminate] |].
  destruct (Pickups.select_owned e id w) as [owned |];
    [| left; split; [reflexivity | discriminate]].
  rewrite retry_test_by_status.
  destruct (Lifecycle.retry_refused (status owned)) eqn:Hs;
    [left; split; [reflexivity | discriminate] |].
  destruct (service_client_error e);
    [left; split; [reflexivity | discriminate] |].
  right. exists owned. repeat split. exact Hs.
Qed.

Lemma cancel_worlds (e : env) (req : request) (w : world) :
  let id := Pickups.route_id e req in
  let out := Pickups.cancel e req w in
  (out.2 = w /\ code out.1 <> 200%nat)
  \/ (exists p : pickup,
         Pickups.select_owned e id w = Some p
         /\ status p <> COMPLETED
         /\ code out.1 = 200%nat
         /\ out.2
            = Pickups.stop_dispatch e id
                (Pickups.update_pickup e 1 id
                   (Pickups.mark_cancelled (now e)) w)).
Proof.
  intros id out. subst out. unfold Pickups.cancel. fold id.
  destruct (JS.truthy (bearer e)); simpl;
    [| left; split; [reflexivity | discriminate]].
  destruct (String.eqb id ""); [left; split; [reflexivity | discriminate] |].
  destruct (anon_client_error e);
    [left; split; [reflexivity | discriminate] |].
  destruct (fault e 0); [left; split; [reflexivity | discriminate] |].
  destruct (Pickups.select_owned e id w) as [owned |];
    [| left; split; [reflexivity | discriminate]].
  rewrite cancel_test_by_status.
  destruct (bool_decide_reflect (status owned = COMPLETED));
    [left; split; [reflexivity | discriminate] |].
  destruct (service_client_error e);
    [left; split; [reflexivity | discriminate] |].
  right. exists owned. repeat split. assumption.
Qed.

Lemma only_pickup_refl (id : string) (w : world) : Frame.only_pickup id w w.
Proof.
  unfold Frame.only_pickup. split; [reflexivity |]. split; [reflexivity |].
  split; [| repeat split]. intros p p' Hp Hp'.
  assert (p' = p) by congruence. subst p'. repeat split.
Qed.

Lemma customer_write_framed (e : env) (id : string) (f : pickup -> pickup)
    (w : world) :
  Frame.keeps_identity f ->
  Frame.only_pickup id w
    (Pickups.stop_dispatch e id (Pickups.update_pickup e 1 id f w)).
Proof.
  intros Hf.
  assert (Hstop : forall w0 : world,
             pickups (Pickups.stop_dispatch e id w0) = pickups w0
             /\ rejections (Pickups.stop_dispatch e id w0) = rejections w0
             /\ scrap_rates (Pickups.stop_dispatch e id w0) = scrap_rates w0
             /\ vendor_backends (Pickups.stop_dispatch e id w0)
                = vendor_backends w0).
  { intros w0. unfold Pickups.stop_dispatch.
    destruct (exposes_internal e); [| repeat split].
    destruct (dispatchState w0 !! id) as [[c [h |] g] |]; repeat split. }
  unfold Frame.only_pickup.
  destruct (Hstop (Pickups.update_pickup e 1 id f w)) as (-> & -> & -> & ->).
  fold (Frame.only_pickup id w (Pickups.update_pickup e 1 id f w)).
  unfold Pickups.update_pickup.
  destruct (fault e 1); [apply only_pickup_refl |].
  unfold Frame.only_pickup. simpl.
  split; [apply dom_alter_L |].
  split; [intros id' Hne; apply lookup_alter_ne; congruence |].
  split; [| repeat split].
  intros p p' Hp. rewrite lookup_alter_eq, Hp. simpl.
  intros [= <-]. apply Hf.
Qed.

(** X7. POST /api/pickups/:id/find-vendor and POST /api/pickups/:id/cancel
    write at most the pickup they are addressed to: no pickup is added or
    removed, every other pickup, the rejection ledger, the rates and the
    vendor table are unchanged, and the addressed pickup keeps its customer,
    address, time slot and completion date. For a pickup the bearer cannot
    see, or that does not exist, nothing at all changes and the answer is
    not 200. *)
Theorem customer_routes_touch_one_pickup (e : env) (req : request)
    (w : world) (out : response * world) :
  out = Pickups.find_vendor e req w \/ out = Pickups.cancel e req w ->
  let id := Pickups.route_id e req in
  Frame.only_pickup id w out.2
  /\ (Pickups.select_owned e id w = None ->
      out.2 = w /\ code out.1 <> 200%nat).
Proof.
  intros [-> | ->] id.
  - destruct (find_vendor_worlds e req w)
      as [[Hw Hc] | (p & Hsel & _ & Hc & Hw)].
    + rewrite Hw. split; [apply only_pickup_refl | tauto].
    + rewrite Hw. split; [| intros Hnone; unfold id in Hnone; congruence].
      apply (customer_write_framed e id Pickups.reset_offer w).
      intros q. repeat split.
  - destruct (cancel_worlds e req w)
      as [[Hw Hc] | (p & Hsel & _ & Hc & Hw)].
    + rewrite Hw. split; [apply only_pickup_refl | tauto].
    + rewrite Hw. split; [| intros Hnone; unfold id in Hnone; congruence].
      apply (customer_write_framed e id (Pickups.mark_cancelled (now e)) w).
      intros q. repeat split.
Qed.

Lemma customer_routes_touch_one_pickup_witness :
  let e := Sample.env_at 100 in
  let req := Sample.for_pickup "P1" JS.Undefined in
  let w := Sample.world_of (Sample.pickup_in FINDING_VENDOR (Some "V1") (Some 110)) in
  Frame.only_pickup "P1" w (Pickups.cancel e req w).2.
Proof.
  intros e req w.
  exact (proj1 (customer_routes_touch_one_pickup e req w
                  (Pickups.cancel e req w) (or_intror eq_refl))).
Defined.

Lemma retry_of_decided_unchanged (e : env) (req : request) (w : world)
    (p : pickup) :
  pickups w !! Pickups.route_id e req = Some p ->
  Lifecycle.retry_refused (status p) = true ->
  (Pickups.find_vendor e req w).2 = w
  /\ code (Pickups.find_vendor e req w).1 <> 200%nat.
Proof.
  intros Hp Hs.
  destruct (find_vendor_worlds e req w)
    as [Hsame | (q & Hsel & Hq & _)]; [exact Hsame |].
  apply select_owned_lookup in Hsel. rewrite Hp in Hsel.
  injection Hsel as <-. congruence.
Qed.

(** X8. A cancellation sticks: once POST /api/pickups/:id/cancel has
    answered 200 and the store has applied its update, every later POST
    /api/pickups/:id/find-vendor for that id, by whatever caller, is
    refused and changes nothing. *)
Theorem cancelled_pickup_is_not_retried (e1 e2 : env) (req1 req2 : request)
    (w : world) :
  code (Pickups.cancel e1 req1 w).1 = 200%nat ->
  fault e1 1 = None ->
  Pickups.route_id e2 req2 = Pickups.route_id e1 req1 ->
  let w1 := (Pickups.cancel e1 req1 w).2 in
  (exists p : pickup,
     pickups w1 !! Pickups.route_id e1 req1 = Some p /\ status p = CANCELLED)
  /\ (Pickups.find_vendor e2 req2 w1).2 = w1
  /\ code (Pickups.find_vendor e2 req2 w1).1 <> 200%nat.
Proof.
  intros Hok Happlied Hid w1.
  assert (Hrec : exists p : pickup,
             pickups w1 !! Pickups.route_id e1 req1 = Some p
             /\ status p = CANCELLED).
  { subst w1. destruct (cancel_worlds e1 req1 w)
      as [[_ Hc] | (p & Hsel & _ & _ & ->)]; [contradiction |].
    exists (Pickups.mark_cancelled (now e1) p).
    rewrite stop_dispatch_pickups. unfold Pickups.update_pickup.
    rewrite Happlied. simpl.
    rewrite lookup_alter_eq, (select_owned_lookup _ _ _ _ Hsel).
    split; reflexivity. }
  split; [exact Hrec |]. destruct Hrec as (p & Hp & Hs).
  apply (retry_of_decided_unchanged e2 req2 w1 p).
  - rewrite Hid. exact Hp.
  - rewrite Hs. reflexivity.
Qed.

Lemma cancelled_pickup_is_not_retried_witness :
  let e1 := Sample.env_at 100 in
  let e2 := Sample.env_at 200 in
  let req := Sample.for_pickup "P1" JS.Undefined in
  let w := Sample.world_of (Sample.pickup_in FINDING_VENDOR (Some "V1") (Some 110)) in
  let w1 := (Pickups.cancel e1 req w).2 in
  (Pickups.find_vendor e2 req w1).2 = w1
  /\ code (Pickups.find_vendor e2 req w1).1 <> 200%nat.
Proof.
  intros e1 e2 req w w1.
  destruct (cancelled_pickup_is_not_retried e1 e2 req req w)
    as (_ & Hsame & Hcode); try reflexivity.
  split; [exact Hsame | exact Hcode].
Defined.

(** ** The guard of the vendor callbacks *)

Lemma signed_is (e : env) :
  JS.truthy (JS.get "ok" (signature e)) = Presence.signed e.
Proof. reflexivity. Qed.

(** X9. On POST /api/vendor/accept, POST /api/vendor/reject and POST
    /api/pickups/accepted the answer is 401 exactly when the signature does
    not verify and 400 exactly when a signed request misses an identifier
    (the pickup; on the two vendor routes also the vendor). In both cases
    the world is as before: the dispatcher was not called. This holds for
    every dispatcher. *)
Theorem callbacks_guarded (d : dispatcher) (e : env) (req : request)
    (w : world) :
  Callback.guarded e true req w (Vendor.accept d e req w)
  /\ Callback.guarded e true req w (Vendor.reject d e req w)
  /\ Callback.guarded e false req w (Pickups.accepted d e req w).
Proof.
  unfold Callback.guarded, Callback.keyed, Vendor.accept, Vendor.reject,
    Pickups.accepted.
  rewrite !signed_is, !pickupId_of_body, !vendorRef_of_body.
  destruct (Presence.signed e); simpl.
  2: { repeat split; intros; try tauto; try discriminate;
         destruct H; discriminate. }
  destruct (JS.truthy (Vendor.pickupId_of (body req))); simpl.
  2: { repeat split; intros; try tauto; try discriminate;
         destruct H; discriminate. }
  split; [| split].
  - destruct (JS.truthy (Vendor.vendorRef_of (body req))); simpl.
    2: { repeat split; intros; try tauto; try discriminate;
           destruct H; discriminate. }
    destruct (confirmVendorAcceptance d e _ _ _) as [[result |] w'];
      [destruct (JS.truthy result) |]; simpl;
      repeat split; intros; try discriminate; try tauto;
      destruct H; discriminate.
  - destruct (JS.truthy (Vendor.vendorRef_of (body req))); simpl.
    2: { repeat split; intros; try tauto; try discriminate;
           destruct H; discriminate. }
    destruct (handleVendorRejection d e _ _ _) as [[result |] w']; simpl;
      repeat split; intros; try discriminate; try tauto;
      destruct H; discriminate.
  - destruct (confirmVendorAcceptance d e _ _ _) as [[result |] w'];
      [destruct (JS.truthy result) |]; simpl;
      repeat split; intros; try discriminate; try tauto;
      destruct H; discriminate.
Qed.

(** ** The presence table under POST /api/vendor/location *)

(** The handler either refuses, whatever the world, or writes its row,
    whatever the world. *)
Lemma location_shape (e : env) (req : request) :
  exists r : response,
    ((code r = 400%nat \/ code r = 500%nat)
     /\ forall w : world, Vendor.location e req w = (r, w))
    \/ (code r = 200%nat
        /\ forall w : world,
             Vendor.location e req w
             = (r, with_vendor_backends
                     (insert (Presence.key_of e req) (Presence.row_of e req))
                     w)).
Proof.
  unfold Vendor.location, Presence.key_of, Presence.row_of.
  fold (Vendor.incoming_vendor_id req) (Vendor.offer_url_of req).
  fold (Vendor.coordinate "latitude" req) (Vendor.coordinate "longitude" req).
  assert (Hnum : forall v : JS.value,
             JS.is_number v = true -> JS.coalesce v JS.Null = v)
    by (intros v Hv; destruct v; try discriminate; reflexivity).
  destruct (JS.truthy (Vendor.incoming_vendor_id req)); simpl;
    [| eexists; left; split; [| intros; reflexivity]; simpl; auto].
  destruct (JS.is_number (Vendor.coordinate "latitude" req)) eqn:Hlat; simpl;
    [| eexists; left; split; [| intros; reflexivity]; simpl; auto].
  destruct (JS.is_number (Vendor.coordinate "longitude" req)) eqn:Hlng; simpl;
    [| eexists; left; split; [| intros; reflexivity]; simpl; auto].
  rewrite (Hnum _ Hlat), (Hnum _ Hlng).
  destruct (service_client_error e);
    [eexists; left; split; [| intros; reflexivity]; simpl; auto |].
  destruct (fault e 0) as [message |].
  - destruct (Vendor.schema_mismatch message).
    + destruct (fault e 1);
        [eexists; left; split; [| intros; reflexivity]; simpl; auto |].
      eexists. right. split; [| intros; reflexivity]. reflexivity.
    + eexists. left. split; [| intros; reflexivity]. simpl. auto.
  - eexists. right. split; [| intros; reflexivity]. reflexivity.
Qed.

(** X10. POST /api/vendor/location answers 200, 400 or 500 and writes
    nothing unless it answers 200; a 200 changes the vendor table at the
    vendor's own key only and leaves the pickups, the ledger, the dispatch
    state, the rates and the trace as they were. *)
Theorem location_touches_one_row (e : env) (req : request) (w : world) :
  let out := Vendor.location e req w in
  (code out.1 = 200%nat \/ code out.1 = 400%nat \/ code out.1 = 500%nat)
  /\ (code out.1 <> 200%nat -> out.2 = w)
  /\ (forall k : string,
        k <> Presence.key_of e req ->
        vendor_backends out.2 !! k = vendor_backends w !! k)
  /\ out.2 = with_vendor_backends (fun _ => vendor_backends out.2) w.
Proof.
  intros out. subst out.
  destruct (location_shape e req) as [r [[Hc Hr] | [Hc Hr]]];
    rewrite (Hr w); simpl.
  - split; [tauto |]. split; [reflexivity |]. split; [reflexivity |].
    destruct w; reflexivity.
  - split; [tauto |]. split; [congruence |]. split; [| reflexivity].
    intros k Hk. apply lookup_insert_ne. congruence.
Qed.

(** X11. POST /api/vendor/location is idempotent: repeating a request at
    the same instant gives the same answer and leaves the world of the
    first request. *)
Theorem location_idempotent (e : env) (req : request) (w : world) :
  Vendor.location e req (Vendor.location e req w).2
  = Vendor.location e req w.
Proof.
  destruct (location_shape e req) as [r [[_ Hr] | [_ Hr]]].
  - rewrite !Hr. reflexivity.
  - rewrite !Hr. simpl. unfold with_vendor_backends. simpl.
    rewrite insert_insert_eq. reflexivity.
Qed.

(** X12. The last location update of a vendor wins: when an update is
    answered 200, the vendor table is the one that update alone would have
    produced, whatever an earlier update under the same key had stored; the
    callback address is replaced too, by null when the later update names
    none. *)
Theorem location_last_write_wins (e1 e2 : env) (req1 req2 : request)
    (w : world) :
  let w1 := (Vendor.location e1 req1 w).2 in
  code (Vendor.location e2 req2 w1).1 = 200%nat ->
  Presence.key_of e1 req1 = Presence.key_of e2 req2 ->
  (Vendor.location e2 req2 w1).2
  = with_vendor_backends
      (insert (Presence.key_of e2 req2) (Presence.row_of e2 req2)) w
  /\ (JS.truthy (Vendor.coordinate "offer_url" req2) = false ->
      JS.truthy (Vendor.coordinate "offerUrl" req2) = false ->
      Vendor.offer_url_of req2 = JS.Null).
Proof.
  intros w1 Hok Hkey. split.
  - subst w1. revert Hok.
    destruct (location_shape e2 req2) as [r2 [[Hc2 Hr2] | [_ Hr2]]];
      rewrite !Hr2; simpl; [intros Hok; destruct Hc2; congruence | intros _].
    destruct (location_shape e1 req1) as [r1 [[_ Hr1] | [_ Hr1]]];
      rewrite Hr1; simpl; [reflexivity |].
    unfold with_vendor_backends. simpl.
    rewrite Hkey, insert_insert_eq. reflexivity.
  - unfold Vendor.offer_url_of, Vendor.coordinate, JS.or.
    intros -> Hcamel. rewrite Hcamel. reflexivity.
Qed.

Lemma location_last_write_wins_witness :
  let e1 := Sample.env_at 90 in
  let e2 := Sample.env_at 95 in
  let req1 :=
    mkRequest
      (JS.Obj [("vendor_id", JS.Str "V1");
               ("latitude", JS.Num (JS.Fin (129 # 10)));
               ("longitude", JS.Num (JS.Fin (776 # 10)));
               ("offer_url", JS.Str "https://v1.example/offer")])
      JS.Undefined in
  let req2 :=
    mkRequest
      (JS.Obj [("vendorId", JS.Str "V1");
               ("latitude", JS.Num (JS.Fin (130 # 10)));
               ("longitude", JS.Num (JS.Fin (775 # 10)))])
      JS.Undefined in
  let w := Sample.world_of (Sample.pickup_in REQUESTED None None) in
  vendor_backends
    (Vendor.location e2 req2 (Vendor.location e1 req1 w).2).2 !! "V1"
  = Some (PreferredRow (JS.Num (JS.Fin (130 # 10)))
            (JS.Num (JS.Fin (775 # 10))) JS.Null true 95).
Proof.
  intros e1 e2 req1 req2 w.
  destruct (location_last_write_wins e1 e2 req1 req2 w) as [Hw _];
    [reflexivity | reflexivity |].
  rewrite Hw. reflexivity.
Defined.

(** ** The in-memory store *)

Section StoreProperties.
Variable pg_createPickup : JS.value -> completion.
Variable pg_select : option (list JS.value).

(** A call leaves the state alone, or appends the pickup it returns. *)
Lemma createPickup_cases (e : env) (input : JS.value) (s : Store.state) :
  (Store.createPickup pg_createPickup e input s).2 = s
  \/ exists p : JS.value,
       Store.createPickup pg_createPickup e input s
       = (Returned p,
          Store.mkState (Store.db s) (Store.pickups s ++ [p])
            (Store.nextPickupId s + 1))
       /\ JS.get "id" p = JS.Num (JS.Fin (inject_Z (Store.nextPickupId s)))
       /\ JS.get "status" p = JS.Str "REQUESTED"
       /\ JS.get "address" p = JS.get "address" input
       /\ JS.get "timeSlot" p = JS.get "timeSlot" input
       /\ (forall k : string,
             k = "latitude" \/ k = "longitude" ->
             JS.get k (JS.get "location" p)
             = JS.or (JS.get_opt k (JS.get "location" input)) JS.Null)
       /\ match Store.db s with
          | Some c => Store.exported_pool c = false
          | None => True
          end.
Proof.
  unfold Store.createPickup.
  destruct (match Store.db s with
            | Some c => Store.exported_pool c
            | None => false
            end) eqn:Hdb; [left; reflexivity |].
  destruct (JS.nullish input); [left; reflexivity |].
  destruct (Store.scrapType_of input) as [scrapType |]; [| left; reflexivity].
  right. eexists. split; [reflexivity |].
  repeat split.
  - intros k [-> | ->]; reflexivity.
  - destruct (Store.db s); [exact Hdb | exact I].
Qed.

Lemma createPickup_numbered (e : env) (input : JS.value) (s : Store.state) :
  Store.numbered s -> Store.numbered (Store.createPickup pg_createPickup e input s).2.
Proof.
  intros [Hnext Hids].
  destruct (createPickup_cases e input s)
    as [-> | (p & -> & Hid & Hst & _)]; [split; assumption |].
  split; simpl.
  - rewrite length_app. simpl. lia.
  - intros i q Hq. apply lookup_app_Some in Hq as [Hq | [Hlen Hq]].
    + exact (Hids i q Hq).
    + destruct (i - length (Store.pickups s))%nat as [| n] eqn:Hi;
        [| destruct n; discriminate].
      injection Hq as <-. split; [| exact Hst].
      rewrite Hid, Hnext. unfold Store.id_at.
      replace i with (length (Store.pickups s)) by lia. reflexivity.
Qed.

Lemma run_creates_numbered (e : env) (inputs : list JS.value)
    (s : Store.state) :
  Store.numbered s ->
  Store.numbered (Store.run_creates pg_createPickup e inputs s)
  /\ (length (Store.pickups (Store.run_creates pg_createPickup e inputs s))
      <= length (Store.pickups s) + length inputs)%nat.
Proof.
  revert s. induction inputs as [| input inputs IH]; intros s Hs.
  - split; [exact Hs | simpl; lia].
  - cbn [Store.run_creates fold_left].
    destruct (IH _ (createPickup_numbered e input s Hs)) as [Hn Hlen].
    split; [exact Hn |].
    unfold Store.run_creates in Hlen. etransitivity; [exact Hlen |].
    destruct (createPickup_cases e input s) as [-> | (p & -> & _)]; simpl.
    + lia.
    + rewrite length_app. simpl. lia.
Qed.

Lemma id_at_inj (i j : nat) : Store.id_at i = Store.id_at j -> i = j.
Proof. unfold Store.id_at, inject_Z. intros [= H]. lia. Qed.

(** With a pool behind the exports of the client module, a run of
    [createPickup] calls never touches the state of the store. *)
Lemma run_creates_database (e : env) (c : Store.client)
    (inputs : list JS.value) (s : Store.state) :
  Store.db s = Some c ->
  Store.exported_pool c = true ->
  Store.run_creates pg_createPickup e inputs s = s.
Proof.
  intros Hdb Hc. induction inputs as [| input inputs IH]; [reflexivity |].
  cbn [Store.run_creates fold_left].
  assert (Hstep : (Store.createPickup pg_createPickup e input s).2 = s).
  { unfold Store.createPickup. rewrite Hdb, Hc. reflexivity. }
  rewrite Hstep. exact IH.
Qed.

(** X13. Whatever inputs [createPickup] of data/store.js is called with,
    from the state the module starts in, the pickups kept in memory carry
    the ids 1, 2, 3, ... in the order of their creation and the status
    REQUESTED, no two of them share an id, the counter is one ahead of the
    last id, and a call that throws or that goes to the database stores
    nothing in memory: such a call hands back the state it was given, and a
    whole run against the database leaves the store in its initial
    state. *)
Theorem store_ids_sequential (e : env) (client_module : option Store.client)
    (inputs : list JS.value) :
  let s :=
    Store.run_creates pg_createPickup e inputs (Store.fresh client_module) in
  Store.nextPickupId s = Z.of_nat (length (Store.pickups s)) + 1
  /\ (forall (i : nat) (p : JS.value),
        Store.pickups s !! i = Some p ->
        JS.get "id" p = Store.id_at i
        /\ JS.get "status" p = JS.Str "REQUESTED")
  /\ (forall (i j : nat) (p q : JS.value),
        Store.pickups s !! i = Some p ->
        Store.pickups s !! j = Some q ->
        JS.get "id" p = JS.get "id" q -> i = j)
  /\ (length (Store.pickups s) <= length inputs)%nat
  /\ (forall (input : JS.value) (s0 : Store.state),
        (Store.createPickup pg_createPickup e input s0).1 = Threw
        \/ (exists c : Store.client,
               Store.db s0 = Some c /\ Store.exported_pool c = true) ->
        (Store.createPickup pg_createPickup e input s0).2 = s0)
  /\ (forall c : Store.client,
        client_module = Some c ->
        Store.exported_pool c = true ->
        s = Store.fresh client_module).
Proof.
  intros s.
  assert (Hfresh : Store.numbered (Store.fresh client_module)).
  { split; [reflexivity | intros i p Hp; discriminate]. }
  destruct (run_creates_numbered e inputs _ Hfresh) as [[Hnext Hids] Hlen].
  fold s in Hnext, Hids, Hlen.
  split; [exact Hnext |]. split; [exact Hids |].
  split; [| split; [exact Hlen |]; split].
  - intros i j p q Hp Hq Heq.
    destruct (Hids i p Hp) as [Hi _]. destruct (Hids j q Hq) as [Hj _].
    apply id_at_inj. congruence.
  - intros input s0 [Hthrew | (c & Hdb & Hc)].
    + destruct (createPickup_cases e input s0)
        as [Hsame | (p & Hret & _)]; [exact Hsame |].
      rewrite Hret in Hthrew. discriminate.
    + unfold Store.createPickup. rewrite Hdb, Hc. reflexivity.
  - intros c Hmod Hc. subst s.
    apply (run_creates_database e c); [rewrite Hmod; reflexivity | exact Hc].
Qed.

(** X14. Without the database module, a pickup [createPickup] returns is
    the next element of what [getAllPickups] returns: it carries the
    current counter as id, the status REQUESTED, the address and time slot
    of the input, and each coordinate of the input, or null when that
    coordinate is falsy, so that a latitude or longitude of 0 is stored as
    null. A call that throws leaves the state and the listing as they
    were. *)
Theorem store_create_then_list (e : env) (input : JS.value)
    (s : Store.state) :
  Store.db s = None ->
  let out := Store.createPickup pg_createPickup e input s in
  match out.1 with
  | Returned p =>
      Store.getAllPickups pg_select out.2
      = Returned (JS.Arr (Store.pickups s ++ [p]))
      /\ JS.get "id" p = JS.Num (JS.Fin (inject_Z (Store.nextPickupId s)))
      /\ JS.get "status" p = JS.Str "REQUESTED"
      /\ JS.get "address" p = JS.get "address" input
      /\ JS.get "timeSlot" p = JS.get "timeSlot" input
      /\ (forall k : string,
            k = "latitude" \/ k = "longitude" ->
            JS.get k (JS.get "location" p)
            = JS.or (JS.get_opt k (JS.get "location" input)) JS.Null)
  | Threw =>
      out.2 = s
      /\ Store.getAllPickups pg_select out.2
         = Returned (JS.Arr (Store.pickups s))
  end.
Proof.
  intros Hdb out. subst out.
  destruct (createPickup_cases e input s)
    as [Hsame | (p & -> & Hid & Hst & Haddr & Hslot & Hloc & _)].
  - revert Hsame. unfold Store.createPickup. rewrite Hdb.
    destruct (JS.nullish input); simpl.
    { intros _. unfold Store.getAllPickups. rewrite Hdb. tauto. }
    destruct (Store.scrapType_of input); simpl.
    + intros Hs. apply (f_equal Store.pickups) in Hs. simpl in Hs.
      apply (f_equal (@length _)) in Hs. rewrite length_app in Hs.
      simpl in Hs. lia.
    + intros _. unfold Store.getAllPickups. rewrite Hdb. tauto.
  - simpl. unfold Store.getAllPickups. simpl. rewrite Hdb. tauto.
Qed.

Lemma run_creates_db (e : env) (inputs : list JS.value) (s : Store.state) :
  Store.db (Store.run_creates pg_createPickup e inputs s) = Store.db s.
Proof.
  revert s. induction inputs as [| input inputs IH]; intros s; [reflexivity |].
  cbn [Store.run_creates fold_left].
  etransitivity; [apply IH |].
  destruct (createPickup_cases e input s) as [-> | (p & -> & _)]; reflexivity.
Qed.

(** With the module loaded but no pool behind its exports, [createPickup]
    works on the array exactly as it does without the module. *)
Lemma createPickup_behind_module (e : env) (c : Store.client)
    (input : JS.value) (l : list JS.value) (n : Z) :
  Store.exported_pool c = false ->
  Store.createPickup pg_createPickup e input (Store.mkState (Some c) l n)
  = let out :=
      Store.createPickup pg_createPickup e input (Store.mkState None l n) in
    (out.1,
     Store.mkState (Some c) (Store.pickups out.2) (Store.nextPickupId out.2)).
Proof.
  intros Hc. unfold Store.createPickup. simpl. rewrite Hc.
  destruct (JS.nullish input); [reflexivity |].
  destruct (Store.scrapType_of input); reflexivity.
Qed.

Lemma run_creates_behind_module (e : env) (c : Store.client)
    (inputs : list JS.value) (l : list JS.value) (n : Z) :
  Store.exported_pool c = false ->
  Store.run_creates pg_createPickup e inputs (Store.mkState (Some c) l n)
  = let s :=
      Store.run_creates pg_createPickup e inputs (Store.mkState None l n) in
    Store.mkState (Some c) (Store.pickups s) (Store.nextPickupId s).
Proof.
  intros Hc. revert l n. induction inputs as [| input inputs IH]; intros l n.
  - reflexivity.
  - cbn [Store.run_creates fold_left].
    rewrite (createPickup_behind_module e c input l n Hc).
    assert (Hdb : Store.db
                    (Store.createPickup pg_createPickup e input
                       (Store.mkState None l n)).2 = None).
    { destruct (createPickup_cases e input (Store.mkState None l n))
        as [-> | (p & -> & _)]; reflexivity. }
    destruct (Store.createPickup pg_createPickup e input
                (Store.mkState None l n)) as [r [d l' n']].
    simpl in Hdb. subst d. simpl. apply IH.
Qed.

(** X15. With db/client.js found but DATABASE_URL unset, the two functions
    of data/store.js disagree on where the data lives: [createPickup]
    keeps every pickup in memory, exactly as it would without the module,
    but [getAllPickups] goes to [db.query], which throws for want of a
    pool, so the pickups created are never listed. *)
Theorem store_unlisted_without_url (e : env) (DATABASE_URL : JS.value)
    (schema_ok : bool) (inputs : list JS.value) :
  JS.truthy DATABASE_URL = false ->
  let c := Store.initDb schema_ok (Store.load DATABASE_URL) in
  let s :=
    Store.run_creates pg_createPickup e inputs (Store.fresh (Some c)) in
  let m := Store.run_creates pg_createPickup e inputs (Store.fresh None) in
  Store.pickups s = Store.pickups m
  /\ Store.getAllPickups pg_select m = Returned (JS.Arr (Store.pickups m))
  /\ Store.getAllPickups pg_select s = Threw.
Proof.
  intros Hurl c s m.
  assert (Hc : c = Store.mkClient false false).
  { subst c. unfold Store.load, JS.or. rewrite Hurl. reflexivity. }
  assert (Hs : s = Store.mkState (Some c) (Store.pickups m)
                     (Store.nextPickupId m)).
  { subst s m. unfold Store.fresh.
    rewrite (run_creates_behind_module e c inputs [] 1); [reflexivity |].
    rewrite Hc. reflexivity. }
  assert (Hm : Store.db m = None) by (subst m; apply run_creates_db).
  split; [rewrite Hs; reflexivity |]. split.
  - unfold Store.getAllPickups. rewrite Hm. reflexivity.
  - rewrite Hs, Hc. reflexivity.
Qed.

(** X16. Once [initDb] of db/client.js has failed, [query] throws for
    every statement and further [initDb] calls change nothing; but the
    [pool] the module exports is still the one created at load time, so
    with DATABASE_URL set data/store.js goes on sending [createPickup] to
    the database, without touching its memory, while [getAllPickups]
    throws. *)
Theorem failed_initDb_disables_query (e : env) (DATABASE_URL : JS.value)
    (retry_ok : bool) (input : JS.value) (l : list JS.value) (n : Z) :
  let c := Store.initDb false (Store.load DATABASE_URL) in
  let s := Store.mkState (Some c) l n in
  Store.query c pg_select = None
  /\ Store.initDb retry_ok c = c
  /\ Store.exported_pool c = JS.truthy DATABASE_URL
  /\ Store.getAllPickups pg_select s = Threw
  /\ (JS.truthy DATABASE_URL = true ->
      Store.createPickup pg_createPickup e input s
      = (pg_createPickup input, s)).
Proof.
  intros c s. subst s c. unfold Store.load, JS.or.
  destruct (JS.truthy DATABASE_URL) eqn:Hurl.
  - rewrite Hurl. simpl. repeat split.
  - simpl. repeat split. discriminate.
Qed.

End StoreProperties.

Lemma store_ids_sequential_witness :
  let e := Sample.env_at 7 in
  let c := Store.load (JS.Str "postgres://db") in
  let inputs := [JS.Obj [("scrapType", JS.Str "Paper")]; JS.Undefined] in
  Store.run_creates (fun _ => Returned JS.Null) e inputs
    (Store.fresh (Some c))
  = Store.fresh (Some c)
  /\ (Store.createPickup (fun _ => Returned JS.Null) e JS.Undefined
        (Store.fresh None)).2
     = Store.fresh None.
Proof.
  intros e c inputs.
  destruct (store_ids_sequential (fun _ => Returned JS.Null) e (Some c)
              inputs) as (_ & _ & _ & _ & Hcall & Hrun).
  split.
  - exact (Hrun c eq_refl eq_refl).
  - apply Hcall. left. reflexivity.
Defined.

Lemma store_create_then_list_witness :
  let e := Sample.env_at 7 in
  let input :=
    JS.Obj [("scrapTypes", JS.Arr [JS.Str "Paper"; JS.Str "Metal"]);
            ("address", JS.Str "12 Mill Lane");
            ("timeSlot", JS.Str "Morning");
            ("location",
             JS.Obj [("latitude", JS.Num (JS.Fin 0));
                     ("longitude", JS.Num (JS.Fin (776 # 10)))])] in
  let stored :=
    JS.Obj [("id", JS.Num (JS.Fin 1));
            ("scrapType", JS.Str "Paper");
            ("address", JS.Str "12 Mill Lane");
            ("timeSlot", JS.Str "Morning");
            ("location",
             JS.Obj [("latitude", JS.Null);
                     ("longitude", JS.Num (JS.Fin (776 # 10)))]);
            ("status", JS.Str "REQUESTED");
            ("createdAt", JS.Str "")] in
  Store.getAllPickups None
    (Store.createPickup (fun _ => Threw) e input (Store.fresh None)).2
  = Returned (JS.Arr [stored]).
Proof.
  intros e input stored.
  exact (proj1 (store_create_then_list (fun _ => Threw) None e input
                  (Store.fresh None) eq_refl)).
Defined.

Lemma store_unlisted_without_url_witness :
  let e := Sample.env_at 7 in
  let input :=
    JS.Obj [("scrapType", JS.Str "Paper"); ("address", JS.Str "12 Mill Lane")] in
  let c := Store.initDb true (Store.load JS.Undefined) in
  let s :=
    Store.run_creates (fun _ => Threw) e [input] (Store.fresh (Some c)) in
  length (Store.pickups s) = 1%nat
  /\ Store.getAllPickups (Some []) s = Threw.
Proof.
  intros e input c s. split; [reflexivity |].
  exact (proj2 (proj2 (store_unlisted_without_url (fun _ => Threw) (Some [])
                         e JS.Undefined true [input] eq_refl))).
Defined.

Lemma failed_initDb_disables_query_witness :
  let e := Sample.env_at 7 in
  let c := Store.initDb false (Store.load (JS.Str "postgres://db")) in
  Store.createPickup (fun _ => Returned JS.Null) e JS.Undefined
    (Store.mkState (Some c) [] 1)
  = (Returned JS.Null, Store.mkState (Some c) [] 1).
Proof.
  intros e c.
  destruct (failed_initDb_disables_query (fun _ => Returned JS.Null)
              (@None (list JS.value)) e (JS.Str "postgres://db") true
              JS.Undefined [] 1) as (_ & _ & _ & _ & Hcreate).
  exact (Hcreate eq_refl).
Defined.
